(** * JAHS-Bench: the metric-table cleaning script and the surrogate lookup

    A shallow embedding of
    - [tabular_sampling/scripts/clean_data.py] ([subsample_df], [clean]) and
    - [jahs_bench/public_api.py] ([Benchmark]),
    followed by the properties of the design document that concern them.

    pandas objects are embedded by what the script observes of them: a
    [DataFrame] with the three-level row index (taskid, model_idx, Epoch) is
    a list of rows in table order together with the levels of its index and
    the types of its columns, a boolean mask is a [bool]-valued function of
    the row, an index of labels is a list of keys, and a frame indexed by
    run is a finite map from run identifiers. *)

From Stdlib Require Import ZArith SpecFloat.
From stdpp Require Import prelude gmap sorting strings.

Local Open Scope Z_scope.

(** ** Outcomes of Python code *)

(** A call either returns a value or raises an exception, recorded by its
    class name and message. *)
Inductive result (A : Type) : Type :=
  | Ok (a : A)
  | Raise (cls msg : string).
Arguments Ok {A} a.
Arguments Raise {A} cls msg.

#[global] Instance result_ret : MRet result := λ A a, Ok a.
#[global] Instance result_bind : MBind result := λ A B k m,
  match m with
  | Ok a => k a
  | Raise cls msg => Raise cls msg
  end.

Definition raises {A} (m : result A) (cls : string) : Prop :=
  ∃ msg, m = Raise cls msg.

(** ** Numbers *)

(** A Python [float] and a numpy [float64] are binary64 numbers, with the
    arithmetic of IEEE 754 as the Standard Library specifies it; the floats
    that Python can hold are the values that [valid_binary 53 1024]
    accepts. *)
Definition binary64 : Type := spec_float.

(** The conversion of an integer, rounding to the nearest float. *)
Definition float_of_int (z : Z) : binary64 := binary_normalize 53 1024 z 0 false.

Definition float_mul (x y : binary64) : binary64 := SFmul 53 1024 x y.

Definition float_div (x y : binary64) : binary64 := SFdiv 53 1024 x y.

Definition float_lt (x y : binary64) : bool := SFltb x y.

(** The literal [1.0]. *)
Definition one : binary64 := float_of_int 1.

(** [math.floor]: the largest integer at or below a finite float. *)
Definition math_floor (x : binary64) : result Z :=
  match x with
  | S754_zero _ => Ok 0
  | S754_finite s m e => Ok (Z.shiftl (if s then Z.neg m else Z.pos m) e)
  | S754_infinity _ =>
      Raise "OverflowError" "cannot convert float infinity to integer"
  | S754_nan => Raise "ValueError" "cannot convert float NaN to integer"
  end.

(** The value an [int64] takes when numpy converts it to [float64], as an
    integer again: an integer of more than 53 bits is rounded to 53 bits,
    to the nearest and to the even one of two that are equally near.  (An
    [int64] is below [2^63], so the result is always finite.) *)
Definition float64_of_int (z : Z) : Z :=
  let a := Z.abs z in
  let k := Z.log2 a - 52 in
  if k <=? 0 then z
  else
    let q := Z.shiftr a k in
    let r := Z.land a (Z.ones k) in
    let half := Z.shiftl 1 (k - 1) in
    let q := if (half <? r) || ((r =? half) && Z.odd q) then q + 1 else q in
    Z.sgn z * Z.shiftl q k.

(** ** Tables *)

(** A cell holds a number, a string or the missing-value marker; the script
    only ever tests cells with [isna] and compares them as group keys. *)
Inductive cell : Type :=
  | NaN
  | Num (z : Z)
  | Str (s : string).

#[global] Instance cell_eq_dec : EqDecision cell.
Proof. solve_decision. Defined.

Definition isna (c : cell) : bool :=
  match c with NaN => true | _ => false end.

(** The type of a column, as far as reshaping cares: integers, floats, or
    Python objects of any kind. *)
Inductive dtype : Type :=
  | int64
  | float64
  | object.

(** A run is identified by the index levels (taskid, model_idx). *)
Definition run_id : Type := Z * Z.

Record Row : Type := mkRow {
  taskid : Z;
  model_idx : Z;
  Epoch : Z;
  vals : list cell
}.

#[global] Instance Row_eq_dec : EqDecision Row.
Proof. solve_decision. Defined.

Definition run_of (r : Row) : run_id := (taskid r, model_idx r).
Definition key_of (r : Row) : run_id * Z := (run_of r, Epoch r).

(** The levels of the row index: the values that each level holds, in the
    order in which the index keeps them (the code of a label is its
    position there).  A level may hold values that label no row. *)
Record Levels : Type := mkLevels {
  level_taskid : list Z;
  level_model_idx : list Z;
  level_Epoch : list Z
}.

(** Column labels have two levels: a namespace and a name.  [dtypes] gives
    the type of every column, in the order of the columns; the cells of a
    row come in the same order. *)
Record DataFrame : Type := mkDF {
  columns : list (string * string);
  rows : list Row;
  index_levels : Levels;
  dtypes : list dtype
}.

(** What pandas maintains of a row index: no level repeats a value, and
    the labels of the rows are values of the levels. *)
Definition index_wf (df : DataFrame) : Prop :=
  NoDup (level_taskid (index_levels df)) ∧
  NoDup (level_model_idx (index_levels df)) ∧
  NoDup (level_Epoch (index_levels df)) ∧
  Forall (λ r, taskid r ∈ level_taskid (index_levels df) ∧
               model_idx r ∈ level_model_idx (index_levels df) ∧
               Epoch r ∈ level_Epoch (index_levels df))
         (rows df).

(** [df.loc[mask]]: the rows whose mask entry is [True], in table order;
    the levels of the index stay as they are, used or not. *)
Definition loc (mask : Row → bool) (df : DataFrame) : DataFrame :=
  {| columns := columns df;
     rows := filter (λ r, mask r) (rows df);
     index_levels := index_levels df;
     dtypes := dtypes df |}.

(** [Index.drop_duplicates()]: the first occurrence of every label stays. *)
Fixpoint drop_duplicates {A} `{EqDecision A} (l : list A) : list A :=
  match l with
  | [] => []
  | x :: l' => x :: filter (λ y, y ≠ x) (drop_duplicates l')
  end.

(** ** Stage 1: throwing away excess epochs (clean, line 85) *)

Definition truncate_epochs (epochs : Z) (data : DataFrame) : DataFrame :=
  loc (λ r, Epoch r <=? epochs) data.

(** ** Stage 2: incomplete runs (clean, lines 87-91) *)

(** Modelled from the spec: [metric_df_ops.get_nepochs] lives in
    [tabular_sampling.lib.postprocessing], whose code is not embedded here.
    Following the design document it "computes, per run, the maximum Epoch
    value present"; the result is a frame indexed by run with the single
    column [nepochs]. *)
Definition get_nepochs (df : DataFrame) : gmap run_id Z :=
  foldr (λ r m,
           <[run_of r := match m !! run_of r with
                         | Some n => Z.max n (Epoch r)
                         | None => Epoch r
                         end]> m)
        ∅ (rows df).

(** Modelled from the spec: [nepochs.reindex(index=data.index,
    method="ffill")] "forward-fills that value across all rows of the run so
    every row carries its run's observed length"; a row without entry would
    carry NaN. *)
Definition reindex_ffill (nepochs : gmap run_id Z) (r : Row) : option Z :=
  nepochs !! run_of r.

(** [nepochs.nepochs <= epochs]; a comparison with NaN is [False]. *)
Definition valid (nepochs : gmap run_id Z) (epochs : Z) (r : Row) : bool :=
  match reindex_ffill nepochs r with
  | Some n => n <=? epochs
  | None => false
  end.

Definition completeness_filter (keep_incomplete_runs : bool) (epochs : Z)
    (data : DataFrame) : DataFrame :=
  if keep_incomplete_runs then
    let nepochs := get_nepochs data in
    loc (valid nepochs epochs) data
  else data.

(** ** Stage 3: NaN values (clean, lines 93-101) *)

(** [data.isna().any(axis=1)] *)
Definition nan_check (r : Row) : bool := existsb isna (vals r).

(** [data.loc[nan_check].index] *)
Definition nan_index (data : DataFrame) : list (run_id * Z) :=
  map key_of (rows (loc nan_check data)).

(** [DataFrame.drop(labels)] on the row index: a full label removes the rows
    carrying it, a label without the Epoch level removes every row of the
    run.  Each label comes from the table itself, so none is missing. *)
Definition drop_labels (labels : list (run_id * Z)) (df : DataFrame) : DataFrame :=
  loc (λ r, negb (bool_decide (key_of r ∈ labels))) df.

Definition drop_runs (labels : list run_id) (df : DataFrame) : DataFrame :=
  loc (λ r, negb (bool_decide (run_of r ∈ labels))) df.

Definition nan_filter (keep_nan_configs : bool) (data : DataFrame) : DataFrame :=
  let nan_ind := nan_index data in
  if keep_nan_configs then
    drop_runs (drop_duplicates (map fst nan_ind)) data
  else
    drop_labels nan_ind data.

(** ** Stage 4: sub-sampling (subsample_df, lines 51-76) *)

(** A frame indexed by run, with single-level column names. *)
Record Configs : Type := mkConfigs {
  cfg_columns : list string;
  cfg_rows : list (run_id * list cell)
}.

(** The first row of every run, in the order in which runs are met. *)
Fixpoint first_rows (l : list Row) : list Row :=
  match l with
  | [] => []
  | r :: l' => r :: filter (λ r', run_of r' ≠ run_of r) (first_rows l')
  end.

(** The cells of one row that sit under the column namespace [ns]. *)
Definition under (ns : string) (cols : list (string * string))
    (vs : list cell) : list cell :=
  omap (λ cv, if decide (cv.1.1 = ns) then Some cv.2 else None) (zip cols vs).

(** Modelled from the spec: [metric_df_ops.get_configs] lives in
    [tabular_sampling.lib.postprocessing], whose code is not embedded here.
    Following the design document it extracts "one representative row per
    run (its [model_config] ...) to avoid double-counting epochs", the runs
    staying "in their original encounter order"; the representative taken
    here is the first row of the run. *)
Definition get_configs (df : DataFrame) : Configs :=
  {| cfg_columns := omap (λ c, if decide (c.1 = "model_config") then Some c.2 else None)
                         (columns df);
     cfg_rows := map (λ r, (run_of r, under "model_config" (columns df) (vals r)))
                     (first_rows (rows df)) |}.

(** The position of the first occurrence of a label. *)
Fixpoint index_of {A} `{EqDecision A} (n : A) (l : list A) : option nat :=
  match l with
  | [] => None
  | x :: l' => if decide (x = n) then Some O else S <$> index_of n l'
  end.

(** [configs[list(names)]]: a missing name is a [KeyError]. *)
Definition getitem (names : list string) (c : Configs)
    : result (list (run_id * list cell)) :=
  match mapM (λ n, index_of n (cfg_columns c)) names with
  | None => Raise "KeyError" "not in index"
  | Some pos =>
      Ok (map (λ f, (f.1, map (λ i, default NaN (f.2 !! i)) pos)) (cfg_rows c))
  end.

(** [frame.loc[:, "check"] = True] on a frame that has no column [check]
    yet: the column is added, its cells set to the scalar; pandas refuses
    to do so on a frame without rows.  The frame is given by its index. *)
Definition set_check {A} (index : list A) : result unit :=
  match index with
  | [] => Raise "ValueError" "cannot set a frame with no defined index and a scalar"
  | _ :: _ => Ok ()
  end.

(** The rows of a fidelity frame are grouped by their whole tuple of values;
    [groupby] leaves rows with a missing key out of every group. *)
Definition na_key (k : list cell) : bool := existsb isna k.

Definition group_keys (fids : list (run_id * list cell)) : list (list cell) :=
  drop_duplicates (filter (λ k, negb (na_key k)) (map snd fids)).

Definition group_size (fids : list (run_id * list cell)) (k : list cell) : Z :=
  Z.of_nat (length (filter (λ f, f.2 = k) fids)).

(** [g.count()], one entry per group. *)
Definition counts (fids : list (run_id * list cell)) : list Z :=
  map (group_size fids) (group_keys fids).

(** [counts.min()]; the minimum of no entries at all is NaN. *)
Definition minimum (l : list Z) : option Z :=
  match l with
  | [] => None
  | x :: l' => Some (foldr Z.min x l')
  end.

(** [g.head(n)]: the rows whose position inside their group is below [n],
    in frame order; a negative [n] leaves out the last [-n] rows of each
    group instead (pandas 1.4 and later). *)
Fixpoint head_from (n : Z) (all : list (run_id * list cell))
    (seen : list (list cell)) (l : list (run_id * list cell))
    : list (run_id * list cell) :=
  match l with
  | [] => []
  | f :: l' =>
      if na_key f.2 then head_from n all seen l'
      else
        let cumcount := Z.of_nat (length (filter (λ k, k = f.2) seen)) in
        let stop := if 0 <=? n then n else group_size all f.2 + n in
        if cumcount <? stop then f :: head_from n all (f.2 :: seen) l'
        else head_from n all (f.2 :: seen) l'
  end.

Definition head (n : Z) (fids : list (run_id * list cell))
    : list (run_id * list cell) :=
  head_from n fids [] fids.

Section Subsampling.

(** [constants.fidelity_params], a tuple of configuration names defined in
    [tabular_sampling.lib.core]. *)
Variable fidelity_params : list string.

(** [math.floor(counts.min() * subsample_frac)] (lines 57-58): the smallest
    count, an [int64] (or NaN when there is no group), is converted to
    [float64] and multiplied by the fraction in floating point; the
    rounded product is what [math.floor] sees. *)
Definition min_sample_size (fids : list (run_id * list cell))
    (subsample_frac : binary64) : result Z :=
  if bool_decide ("check" ∈ fidelity_params) then
    (* the placeholder column replaced a key: nothing is left to count *)
    Raise "TypeError" "cannot convert the series to <class 'float'>"
  else
    let smallest :=
      match minimum (counts fids) with
      | Some m => float_of_int m
      | None => S754_nan
      end in
    math_floor (float_mul smallest subsample_frac).

(** [metric_df_ops.get_configs(df=df)[list(constants.fidelity_params)]] *)
Definition fidelity_frame (df : DataFrame)
    : result (list (run_id * list cell)) :=
  getitem fidelity_params (get_configs df).

Definition subsample_df (df : DataFrame) (subsample_frac : binary64)
    : result DataFrame :=
  fids ← fidelity_frame df;
  (* line 55; a fidelity column called [check] is overwritten instead *)
  _ ← (if bool_decide ("check" ∈ fidelity_params) then Ok () else set_check fids);
  match fidelity_params with
  | [] => Raise "ValueError" "No group keys passed!"
  | _ :: _ =>
      n ← min_sample_size fids subsample_frac;
      let configs := head n fids in
      (* lines 64-67: the full index and the selected runs, each with its
         placeholder column *)
      _ ← set_check (rows df);
      _ ← set_check configs;
      (* the join of the full index with the selected runs, as a mask *)
      let sel := λ r, bool_decide (run_of r ∈ map fst configs) in
      Ok (loc sel df)
  end.

(** The sub-sampling step of [clean] (lines 103-105). *)
Definition subsample_stage (subsample : binary64) (data : DataFrame)
    : result DataFrame :=
  if float_lt subsample one then subsample_df data subsample else Ok data.

End Subsampling.

(** ** Stage 5: anonymizing the index (clean, lines 107-112) *)

(** The code of a label: its position in the level. *)
Definition position (level : list Z) (v : Z) : nat :=
  default (length level) (index_of v level).

(** [MultiIndex.remove_unused_levels()], which [unstack] applies to the row
    index, on one level: a level all of whose values are in use stays as it
    is; a level with a value that labels no row is rebuilt from the values
    in use, in the order in which the rows first show them. *)
Definition remove_unused_levels (level used : list Z) : list Z :=
  if forallb (λ v, bool_decide (v ∈ used)) level then level
  else drop_duplicates used.

(** The order of two labels of one level by their codes. *)
Definition position_leb (level : list Z) (a b : Z) : bool :=
  (position level a <=? position level b)%nat.

(** The order of two runs by their codes, taskid first. *)
Definition code_leb (level_t level_m : list Z) (a b : run_id) : bool :=
  (position level_t a.1 <? position level_t b.1)%nat ||
  ((position level_t a.1 =? position level_t b.1)%nat &&
   (position level_m a.2 <=? position level_m b.2)%nat).

(** The runs of the table in the order in which [unstack] lines them up:
    by the codes of their labels in the levels left by
    [remove_unused_levels]. *)
Definition level_runs (df : DataFrame) : list run_id :=
  let level_t :=
    remove_unused_levels (level_taskid (index_levels df)) (taskid <$> rows df) in
  let level_m :=
    remove_unused_levels (level_model_idx (index_levels df)) (model_idx <$> rows df) in
  merge_sort (λ a b, code_leb level_t level_m a b) (remove_dups (run_of <$> rows df)).

(** The epochs that become columns, in column order. *)
Definition level_epochs (df : DataFrame) : list Z :=
  remove_unused_levels (level_Epoch (index_levels df)) (Epoch <$> rows df).

(** The ModelIndex a run ends up with: its place in that line. *)
Definition model_index (df : DataFrame) (run : run_id) : Z :=
  Z.of_nat (default 0%nat (index_of run (level_runs df))).

(** Whether every run has a row for every epoch, so that the wide frame
    has no cell to fill. *)
Definition mask_all (df : DataFrame) : bool :=
  forallb (λ run,
             forallb (λ e, bool_decide ((run, e) ∈ key_of <$> rows df))
                     (level_epochs df))
          (level_runs df).

(** When there are cells to fill, NaN must fit every column: an [int64]
    column is converted to [float64]; floats and objects stay as they are. *)
Definition maybe_promote (full : bool) (dt : dtype) (c : cell) : cell :=
  match full, dt, c with
  | false, int64, Num z => Num (float64_of_int z)
  | _, _, _ => c
  end.

(** The cells of a row as the wide frame holds them. *)
Definition new_values (df : DataFrame) (vs : list cell) : list cell :=
  imap (λ i c, maybe_promote (mask_all df) (default object (dtypes df !! i)) c) vs.

(** A wide frame: one row per entry of the index and, for every epoch, the
    block of the original columns at that epoch.  The Epoch level of its
    column labels is the Epoch level of the table it was made from, whole. *)
Record Wide (I : Type) : Type := mkWide {
  w_columns : list (string * string);
  w_level : list Z;
  w_epochs : list Z;
  w_index : list I;
  w_blocks : list (list (list cell))
}.
Arguments mkWide {I} _ _ _ _ _.
Arguments w_columns {I} _.
Arguments w_level {I} _.
Arguments w_epochs {I} _.
Arguments w_index {I} _.
Arguments w_blocks {I} _.

(** The cells of run [run] at epoch [e]; a combination that has no row is
    filled with NaN. *)
Definition block_of (df : DataFrame) (run : run_id) (e : Z) : list cell :=
  match filter (λ r, key_of r = (run, e)) (rows df) with
  | r :: _ => new_values df (vals r)
  | [] => replicate (length (columns df)) NaN
  end.

(** [data.unstack("Epoch")]; pandas refuses an index with repeated labels. *)
Definition unstack (df : DataFrame) : result (Wide run_id) :=
  if decide (NoDup (key_of <$> rows df)) then
    let runs := level_runs df in
    let epochs := level_epochs df in
    Ok (mkWide (columns df) (level_Epoch (index_levels df)) epochs runs
               ((λ run, block_of df run <$> epochs) <$> runs))
  else Raise "ValueError" "Index contains duplicate entries, cannot reshape".

(** [data.reset_index(drop=True, inplace=True)] followed by
    [data.index.set_names("ModelIndex", inplace=True)]. *)
Definition reset_index {I} (w : Wide I) : Wide Z :=
  mkWide (w_columns w) (w_level w) (w_epochs w)
         (Z.of_nat <$> seq 0 (length (w_index w))) (w_blocks w).

Record LongRow : Type := mkLong {
  ModelIndex : Z;
  long_Epoch : Z;
  long_vals : list cell
}.

#[global] Instance LongRow_eq_dec : EqDecision LongRow.
Proof. solve_decision. Defined.

(** [data.stack("Epoch")]: back to one row per (ModelIndex, Epoch), the
    epochs of one ModelIndex in the order of their codes in the Epoch
    level; a row whose cells are all NaN is dropped.  A wide frame without
    rows has no column either (no epoch is in use), and pandas cannot stack
    a frame without columns. *)
Definition stack (w : Wide Z) : result (list LongRow) :=
  if decide (w_index w = []) then
    Raise "ValueError" "Must pass non-zero number of levels/codes"
  else
    Ok (ib ← zip (w_index w) (w_blocks w);
        omap (λ eb, if forallb isna eb.2 then None
                    else Some (mkLong ib.1 eb.1 eb.2))
             (merge_sort (λ a b, position_leb (w_level w) a.1 b.1)
                         (zip (w_epochs w) ib.2))).

Definition anonymize (data : DataFrame) : result (list LongRow) :=
  w ← unstack data;
  (* idx, the copy of the original index, is not used again *)
  let w := reset_index w in
  stack w.

(** ** The pipeline (clean, lines 84-112) *)

Section Clean.

Variable fidelity_params : list string.

(** The four filtering steps, on the frame read from [data_pth]. *)
Definition clean_filters (data : DataFrame) (epochs : Z)
    (keep_incomplete_runs keep_nan_configs : bool) (subsample : binary64)
    : result DataFrame :=
  let data := truncate_epochs epochs data in
  let data := completeness_filter keep_incomplete_runs epochs data in
  let data := nan_filter keep_nan_configs data in
  subsample_stage fidelity_params subsample data.

(** [clean] up to the long-format table keyed by (ModelIndex, Epoch). *)
Definition clean (data : DataFrame) (epochs : Z)
    (keep_incomplete_runs keep_nan_configs : bool) (subsample : binary64)
    : result (list LongRow) :=
  data ← clean_filters data epochs keep_incomplete_runs keep_nan_configs subsample;
  anonymize data.

End Clean.

(** ** The surrogate lookup (public_api.py) *)

(** The Python values that reach [Benchmark]. *)
Inductive pyobj : Type :=
  | PyNone
  | PyBool (b : bool)
  | PyInt (z : Z)
  | PyStr (s : string)
  | PyPath (p : string).

#[global] Instance pyobj_eq_dec : EqDecision pyobj.
Proof. solve_decision. Defined.

(** [d[k] = v] on a dict, and [frame.loc[:, k] = v] on the columns of a
    one-row frame: an existing entry is overwritten in place, a new one
    goes to the end. *)
Fixpoint setitem {V} (k : string) (v : V) (d : list (string * V))
    : list (string * V) :=
  match d with
  | [] => [(k, v)]
  | kv :: d' => if decide (kv.1 = k) then (k, v) :: d' else kv :: setitem k v d'
  end.

(** A dict by its items in insertion order. *)
Definition dict_of {V} (items : list (string * V)) : list (string * V) :=
  foldl (λ d kv, setitem kv.1 kv.2 d) [] items.

Module Benchmark.
Section WithSurrogate.

(** Numbers as numpy holds them; nothing is computed with them here. *)
Variable float : Type.

(** [XGBSurrogate] comes from [jahs_bench.lib.surrogate]: a loaded model
    is known by its label names and its prediction, the flat data of the
    array it returns for a feature row. *)
Record XGBSurrogate : Type := mkSurrogate {
  label_headers : list string;
  predict : list (string * pyobj) → list float
}.

(** The file system and the model loader. *)
Variable path_exists : string → bool.
Variable path_is_dir : string → bool.
Variable XGBSurrogate_load : string → result XGBSurrogate.

(** [model_path: Optional[Union[str, Path]] = True] *)
Definition default_model_path : pyobj := PyBool true.

Definition documented_message : string :=
  "A path to a directory where a surrogate model was saved must be given.".

(** [__init__] (lines 15-23).  Besides its outcome it reports the paths
    handed to [XGBSurrogate.load], in call order. *)
Definition __init__ (model_path : pyobj) : result XGBSurrogate * list string :=
  let model_path :=
    match model_path with PyStr s => PyPath s | _ => model_path end in
  match model_path with
  | PyNone => (Raise "AssertionError" documented_message, [])
  | PyPath p =>
      if path_exists p && path_is_dir p then (XGBSurrogate_load p, [p])
      else (Raise "AssertionError" "", [])
  | _ => (Raise "AttributeError" "object has no attribute 'exists'", [])
  end.

(** [pd.Series(config).to_frame().transpose()] and the assignment of the
    [epoch] column (lines 31-32): the columns of the one-row frame. *)
Definition features_of (config : list (string * pyobj)) (nepochs : pyobj)
    : list (string * pyobj) :=
  setitem "epoch" nepochs (dict_of config).

(** [outputs.reshape(-1, n)]: rows of [n] entries each. *)
Definition reshape (n : nat) (flat : list float) : result (list (list float)) :=
  if decide (n = 0%nat) then
    Raise "ValueError" "cannot reshape array"
  else if decide ((length flat `mod` n)%nat = 0%nat) then
    Ok (map (λ j, take n (drop (j * n) flat)) (seq 0 (length flat `div` n)))
  else Raise "ValueError" "cannot reshape array".

Definition item {A} (l : list A) (i : nat) : result A :=
  match l !! i with
  | Some x => Ok x
  | None => Raise "IndexError" "index is out of bounds"
  end.

(** [{k: outputs[0][i] for i, k in enumerate(label_headers.values)}] *)
Fixpoint comprehension (outputs : list (list float))
    (items : list (nat * string)) (acc : list (string * float))
    : result (list (string * float)) :=
  match items with
  | [] => Ok acc
  | ik :: rest =>
      row ← item outputs 0;
      v ← item row ik.1;
      comprehension outputs rest (setitem ik.2 v acc)
  end.

(** [_benchmark_surrogate] (lines 28-37) *)
Definition _benchmark_surrogate (surrogate : XGBSurrogate)
    (config : list (string * pyobj)) (nepochs : pyobj)
    : result (list (string * float)) :=
  let features := features_of config nepochs in
  let outputs := predict surrogate features in
  outputs ← reshape (length (label_headers surrogate)) outputs;
  comprehension outputs (imap pair (label_headers surrogate)) [].

(** [__call__] (lines 25-26); the object is known by its surrogate. *)
Definition __call__ (self : XGBSurrogate) (config : list (string * pyobj))
    (nepochs : pyobj) : result (list (string * float)) :=
  _benchmark_surrogate self config nepochs.

End WithSurrogate.
End Benchmark.

(** ** What a filtering step may do to a table *)

(** The step kept the columns and removed rows only: what is left are rows
    of the input, cell for cell, in their original relative order. *)
Definition only_removes_rows (input output : DataFrame) : Prop :=
  columns output = columns input ∧ rows output `sublist_of` rows input.

(** The fidelity values of a row, read at the positions [pos] of the
    configuration columns. *)
Definition fid_key (cols : list (string * string)) (pos : list nat) (r : Row)
    : list cell :=
  (λ i, default NaN (under "model_config" cols (vals r) !! i)) <$> pos.

(** ** The output file (clean, line 82) *)

Module PurePath.

(** A [pathlib] path of a POSIX system, as [pathlib] holds it: whether it
    starts at the root, and its components (none of them empty, ["."] or
    with a slash in it). *)
Record Path : Type := mkPath {
  absolute : bool;
  parts : list string
}.

(** [p.name]: the last component, or the empty string. *)
Definition name (p : Path) : string := default "" (last (parts p)).

(** [p.parent]: the path without its last component; a path without
    components is its own parent. *)
Definition parent (p : Path) : Path :=
  mkPath (absolute p) (removelast (parts p)).

(** [p / s] for a string [s] that is a single component. *)
Definition joinpath (p : Path) (s : string) : Path :=
  mkPath (absolute p) (parts p ++ [s]).

(** [outfile.parent / f"{outfile.name}.pkl.gz"] *)
Definition outfile_path (outfile : Path) : Path :=
  joinpath (parent outfile) (name outfile +:+ ".pkl.gz").

End PurePath.


(** ** Sample tables *)

Module Examples.

Definition cols : list (string * string) :=
  [("model_config", "N"); ("train", "loss")].

Definition types : list dtype := [int64; float64].

Definition row (t m e n : Z) (loss : cell) : Row := mkRow t m e [Num n; loss].

(** Five runs in two fidelity groups: N = 5 for the runs (1,2), (2,2) and
    (2,3), N = 3 for the runs (1,1) and (2,1).  Run (1,2) has three epochs,
    the second with a NaN loss; run (1,1) has two epochs, the others one.
    The levels of the index are in increasing order. *)
Definition metrics : DataFrame :=
  mkDF cols
       [ row 1 2 0 5 (Num 1); row 1 2 1 5 NaN; row 1 2 2 5 (Num 3);
         row 1 1 0 3 (Num 1); row 1 1 1 3 (Num 1);
         row 2 1 0 3 (Num 7); row 2 2 0 5 (Num 7); row 2 3 0 5 (Num 7) ]
       (mkLevels [1; 2] [1; 2; 3] [0; 1; 2]) types.

(** A single run that has data for epoch 0 only. *)
Definition short_run : DataFrame :=
  mkDF cols [ row 0 0 0 16 (Num 1) ] (mkLevels [0] [0] [0]) types.

(** The same columns and levels as [metrics], and no row. *)
Definition no_rows : DataFrame :=
  mkDF cols [] (mkLevels [1; 2] [1; 2; 3] [0; 1; 2]) types.

(** Two runs, the first with two epochs and the second with one, so that
    the wide table has a cell to fill; the first run has an N of 54 bits. *)
Definition ragged : DataFrame :=
  mkDF cols
       [ row 1 1 0 9007199254740993 (Num 1); row 1 1 1 9007199254740993 (Num 1);
         row 1 2 0 3 (Num 1) ]
       (mkLevels [1] [1; 2] [0; 1]) types.

(** The floats [0.0], [0.25], [0.5], [1.5], [2.0], and [1/3] as Python
    computes it. *)
Definition zero : binary64 := float_of_int 0.
Definition quarter : binary64 := float_div one (float_of_int 4).
Definition half : binary64 := float_div one (float_of_int 2).
Definition three_halves : binary64 := float_div (float_of_int 3) (float_of_int 2).
Definition two : binary64 := float_of_int 2.
Definition third : binary64 := float_div one (float_of_int 3).

(** A model with two labels that predicts the same pair for every input. *)
Definition constant_model : Benchmark.XGBSurrogate Z :=
  Benchmark.mkSurrogate Z ["valid-acc"; "runtime"] (λ _, [91; 12]).

(** A configuration with a single field. *)
Definition config : list (string * pyobj) := [("N", PyInt 3)].

(** A model with a repeated label name whose prediction fills two rows. *)
Definition repeating_model : Benchmark.XGBSurrogate Z :=
  Benchmark.mkSurrogate Z ["loss"; "acc"; "loss"] (λ _, [1; 2; 3; 4; 5; 6]).

End Examples.

(** * Properties *)

(** Membership of a string in a list that is written out. *)
Ltac in_list :=
  repeat first [apply list_elem_of_here | apply list_elem_of_further].

Ltac not_in_list H :=
  repeat (apply elem_of_cons in H as [H | H]; [discriminate H |]);
  by apply elem_of_nil in H.

(** ** Masks and labels *)

Lemma loc_only_removes_rows mask df : only_removes_rows df (loc mask df).
Proof. split; [done | apply sublist_filter]. Qed.

Lemma only_removes_rows_refl df : only_removes_rows df df.
Proof. by split. Qed.

Lemma elem_of_rows_loc mask df r :
  r ∈ rows (loc mask df) ↔ mask r = true ∧ r ∈ rows df.
Proof.
  unfold loc; simpl. rewrite list_elem_of_filter.
  by rewrite Is_true_true.
Qed.

Lemma elem_of_drop_duplicates {A} `{EqDecision A} (l : list A) x :
  x ∈ drop_duplicates l ↔ x ∈ l.
Proof.
  induction l as [|y l IH]; simpl; [done |].
  rewrite !elem_of_cons, list_elem_of_filter, IH.
  destruct (decide (x = y)); intuition congruence.
Qed.

Lemma NoDup_drop_duplicates {A} `{EqDecision A} (l : list A) :
  NoDup (drop_duplicates l).
Proof.
  induction l as [|y l IH]; simpl; [constructor |].
  constructor; [| by apply NoDup_filter].
  rewrite list_elem_of_filter. intros [Hne _]. by apply Hne.
Qed.

(** ** Epoch truncation *)

Lemma elem_of_truncate_epochs epochs data r :
  r ∈ rows (truncate_epochs epochs data) ↔ r ∈ rows data ∧ Epoch r ≤ epochs.
Proof.
  unfold truncate_epochs. rewrite elem_of_rows_loc, Z.leb_le. tauto.
Qed.

Lemma truncate_epochs_twice e1 e2 data :
  e1 ≤ e2 →
  truncate_epochs e1 (truncate_epochs e2 data) = truncate_epochs e1 data.
Proof.
  intros Hle. unfold truncate_epochs, loc; simpl. f_equal.
  rewrite list_filter_filter. apply list_filter_iff. intros r.
  rewrite !Is_true_true, !Z.leb_le. lia.
Qed.

(** C7. Truncation is monotone in the horizon: for [e1 ≤ e2] the rows kept at
    horizon [e1] are rows kept at horizon [e2], in the same relative order
    and with the same multiplicity; in particular every row of the first
    table is a row of the second. *)
Theorem truncate_epochs_monotone (T : DataFrame) (e1 e2 : Z) :
  e1 ≤ e2 →
  rows (truncate_epochs e1 T) `sublist_of` rows (truncate_epochs e2 T) ∧
  ∀ r, r ∈ rows (truncate_epochs e1 T) → r ∈ rows (truncate_epochs e2 T).
Proof.
  intros Hle.
  assert (Hsub : rows (truncate_epochs e1 T) `sublist_of` rows (truncate_epochs e2 T)).
  { rewrite <- (truncate_epochs_twice e1 e2 T Hle).
    apply (loc_only_removes_rows _ (truncate_epochs e2 T)). }
  split; [done |].
  intros r Hr. by eapply elem_of_sublist.
Qed.

(** ** Incomplete runs *)

Lemma filter_all {A} (P : A → Prop) `{∀ x, Decision (P x)} (l : list A) :
  (∀ x, x ∈ l → P x) → filter P l = l.
Proof.
  induction l as [|x l IH]; intros HP; [done |].
  rewrite filter_cons_True by (apply HP; left).
  f_equal. apply IH. intros y Hy. apply HP. by right.
Qed.

Lemma filter_none {A} (P : A → Prop) `{∀ x, Decision (P x)} (l : list A) :
  (∀ x, x ∈ l → ¬ P x) → filter P l = [].
Proof.
  induction l as [|x l IH]; intros HP; [done |].
  rewrite filter_cons_False by (apply HP; left).
  apply IH. intros y Hy. apply HP. by right.
Qed.

Lemma get_nepochs_None df run :
  get_nepochs df !! run = None ↔ ∀ r, r ∈ rows df → run_of r ≠ run.
Proof.
  unfold get_nepochs. induction (rows df) as [|r l IH]; simpl.
  - split; [intros _ r Hr; by apply elem_of_nil in Hr | by rewrite lookup_empty].
  - destruct (decide (run_of r = run)) as [<- | Hne].
    + rewrite lookup_insert_eq. split; [done |].
      intros Hall. exfalso. by apply (Hall r); [left |].
    + rewrite lookup_insert_ne by done. rewrite IH. split.
      * intros Hall r' [-> | Hr']%elem_of_cons; [done | by apply Hall].
      * intros Hall r' Hr'. apply Hall. by right.
Qed.

(** The entry of a run is the largest Epoch among its rows. *)
Lemma get_nepochs_Some df run n :
  get_nepochs df !! run = Some n →
  (∃ r, r ∈ rows df ∧ run_of r = run ∧ Epoch r = n) ∧
  (∀ r, r ∈ rows df → run_of r = run → Epoch r ≤ n).
Proof.
  unfold get_nepochs. revert n. induction (rows df) as [|r l IH]; simpl; intros n.
  - by rewrite lookup_empty.
  - destruct (decide (run_of r = run)) as [Heq | Hne].
    + subst run. rewrite lookup_insert_eq. intros Hn.
      destruct (foldr _ ∅ l !! run_of r) as [m|] eqn:Hm.
      * destruct (IH m eq_refl) as [(r0 & Hr0 & Hrun & He) Hmax].
        injection Hn as <-. split.
        -- destruct (Z.max_spec m (Epoch r)) as [[_ Hmx] | [_ Hmx]]; rewrite Hmx.
           ++ exists r. split; [left | done].
           ++ exists r0. split; [by right | done].
        -- intros r' [-> | Hr']%elem_of_cons Hrun'; [lia |].
           specialize (Hmax r' Hr' Hrun'). lia.
      * injection Hn as <-. split.
        -- exists r. split; [left | done].
        -- intros r' [-> | Hr']%elem_of_cons Hrun'; [lia |].
           exfalso.
           by apply (proj1 (get_nepochs_None (mkDF [] l (index_levels df) (dtypes df)) (run_of r)) Hm r' Hr').
    + rewrite lookup_insert_ne by done. intros Hn.
      destruct (IH n Hn) as [(r0 & Hr0 & Hrun & He) Hmax]. split.
      * exists r0. split; [by right | done].
      * intros r' [-> | Hr']%elem_of_cons Hrun'; [done | by apply Hmax].
Qed.

(** After the truncation every run is at most [epochs] long, so the test
    [nepochs <= epochs] holds on every row: the step removes nothing,
    whatever the flag. *)
Lemma completeness_filter_truncated keep_incomplete_runs epochs data :
  completeness_filter keep_incomplete_runs epochs (truncate_epochs epochs data)
  = truncate_epochs epochs data.
Proof.
  destruct keep_incomplete_runs; [| done].
  unfold completeness_filter.
  set (d := truncate_epochs epochs data).
  unfold loc. replace (filter _ (rows d)) with (rows d); [by destruct d |].
  symmetry. apply filter_all. intros r Hr. apply Is_true_true.
  unfold valid, reindex_ffill.
  destruct (get_nepochs d !! run_of r) as [n|] eqn:Hn.
  - apply Z.leb_le.
    destruct (get_nepochs_Some d _ _ Hn) as [(r0 & Hr0 & _ & <-) _].
    by apply elem_of_truncate_epochs in Hr0 as [_ ?].
  - exfalso. by apply (proj1 (get_nepochs_None d _) Hn r Hr).
Qed.

Lemma completeness_filter_only_removes_rows b epochs data :
  only_removes_rows data (completeness_filter b epochs data).
Proof.
  destruct b; simpl;
    [apply loc_only_removes_rows | apply only_removes_rows_refl].
Qed.

(** ** NaN values *)

(** Rows are determined by their labels when the index has no repeats. *)
Lemma key_of_inj (l : list Row) r1 r2 :
  NoDup (key_of <$> l) → r1 ∈ l → r2 ∈ l → key_of r1 = key_of r2 → r1 = r2.
Proof.
  intros Hnd (i1 & H1)%list_elem_of_lookup_1 (i2 & H2)%list_elem_of_lookup_1 Hkey.
  assert (i1 = i2) as ->; [| congruence].
  eapply (NoDup_lookup _ _ _ _ Hnd); rewrite list_lookup_fmap.
  - by rewrite H1.
  - rewrite H2. simpl. by rewrite Hkey.
Qed.

Lemma nan_filter_only_removes_rows b data :
  only_removes_rows data (nan_filter b data).
Proof. destruct b; apply loc_only_removes_rows. Qed.

(** A row that survives the filter has no NaN cell, in either mode. *)
Lemma nan_filter_clean b data r :
  r ∈ rows (nan_filter b data) → nan_check r = false.
Proof.
  destruct (nan_check r) eqn:Hnan; [| done]. intros Hr. exfalso.
  assert (Hkey : key_of r ∈ nan_index data).
  { unfold nan_index. apply list_elem_of_fmap_2.
    apply elem_of_rows_loc. split; [done |].
    eapply elem_of_sublist; [done | apply nan_filter_only_removes_rows]. }
  destruct b; simpl in Hr; apply elem_of_rows_loc in Hr as [Hmask _];
    apply negb_true_iff, bool_decide_eq_false in Hmask; apply Hmask; [| done].
  apply elem_of_drop_duplicates. by apply (list_elem_of_fmap_2 fst) in Hkey.
Qed.

(** What each mode keeps: by default the rows whose label is not the label
    of a row with a NaN, with [keep_nan_configs] the rows of the runs that
    have no row with a NaN. *)
Lemma elem_of_nan_filter_strict data r :
  r ∈ rows (nan_filter false data) ↔
  r ∈ rows data ∧ ∀ r', r' ∈ rows data → key_of r' = key_of r → nan_check r' = false.
Proof.
  simpl. rewrite list_elem_of_filter, Is_true_true, negb_true_iff,
    bool_decide_eq_false.
  unfold nan_index. rewrite list_elem_of_fmap. split.
  - intros [Hno Hr]. split; [done |]. intros r' Hr' Hkey.
    destruct (nan_check r') eqn:Hnan; [| done].
    exfalso. apply Hno. exists r'. split; [done |].
    by apply elem_of_rows_loc.
  - intros [Hr Hno]. split; [| done].
    intros (r' & Hkey & [Hnan Hr']%elem_of_rows_loc).
    by rewrite (Hno r' Hr') in Hnan.
Qed.

Lemma elem_of_nan_filter_lenient data r :
  r ∈ rows (nan_filter true data) ↔
  r ∈ rows data ∧ ∀ r', r' ∈ rows data → run_of r' = run_of r → nan_check r' = false.
Proof.
  simpl. rewrite list_elem_of_filter, Is_true_true, negb_true_iff,
    bool_decide_eq_false, elem_of_drop_duplicates.
  unfold nan_index. rewrite <- list_fmap_compose, list_elem_of_fmap. split.
  - intros [Hno Hr]. split; [done |]. intros r' Hr' Hrun.
    destruct (nan_check r') eqn:Hnan; [| done].
    exfalso. apply Hno. exists r'. split; [done |].
    by apply elem_of_rows_loc.
  - intros [Hr Hno]. split; [| done].
    intros (r' & Hrun & [Hnan Hr']%elem_of_rows_loc).
    by rewrite (Hno r' Hr') in Hnan.
Qed.

(** With distinct row labels the default mode drops exactly the rows that
    contain a NaN. *)
Lemma elem_of_nan_filter_strict_NoDup data r :
  NoDup (key_of <$> rows data) →
  r ∈ rows (nan_filter false data) ↔ r ∈ rows data ∧ nan_check r = false.
Proof.
  intros Hnd. rewrite elem_of_nan_filter_strict. split.
  - intros [Hr Hno]. split; [done |]. by apply Hno.
  - intros [Hr Hnan]. split; [done |]. intros r' Hr' Hkey.
    by rewrite (key_of_inj _ _ _ Hnd Hr' Hr Hkey).
Qed.

(** Dropping by run removes at least what dropping by full label removes. *)
Lemma nan_filter_lenient_from_strict data :
  rows (nan_filter true data)
  = filter (λ r, negb (bool_decide (run_of r ∈ drop_duplicates (map fst (nan_index data)))))
           (rows (nan_filter false data)).
Proof.
  simpl. rewrite list_filter_filter. apply list_filter_iff. intros r.
  split; [| by intros [? _]]. intros Hrun. split; [done |].
  apply Is_true_true, negb_true_iff, bool_decide_eq_false.
  apply Is_true_true, negb_true_iff, bool_decide_eq_false in Hrun.
  intros Hkey. apply Hrun, elem_of_drop_duplicates.
  by apply (list_elem_of_fmap_2 fst) in Hkey.
Qed.

(** C6. On every table the NaN filter with [keep_nan_configs] set (all rows
    of every run that has a NaN are dropped) leaves at most as many rows as
    the default mode (exactly the rows with a NaN are dropped): its rows are
    a sub-list of the rows the default mode keeps. *)
Theorem nan_filter_lenient_le_strict (data : DataFrame) :
  (length (rows (nan_filter true data)) ≤ length (rows (nan_filter false data)))%nat ∧
  rows (nan_filter true data) `sublist_of` rows (nan_filter false data).
Proof.
  assert (Hsub : rows (nan_filter true data) `sublist_of` rows (nan_filter false data)).
  { rewrite nan_filter_lenient_from_strict. apply sublist_filter. }
  split; [by apply sublist_length | done].
Qed.

(** ** Sub-sampling *)

Lemma index_of_lookup {A} `{EqDecision A} (x : A) l i :
  index_of x l = Some i → l !! i = Some x.
Proof.
  revert i. induction l as [|y l IH]; intros i; simpl; [done |].
  destruct (decide (y = x)) as [-> | Hne]; [by intros [= <-] |].
  destruct (index_of x l) as [j|]; [| done].
  intros [= <-]. by apply IH.
Qed.

Lemma index_of_elem_of {A} `{EqDecision A} (x : A) l :
  x ∈ l → is_Some (index_of x l).
Proof.
  induction l as [|y l IH]; [by intros ?%elem_of_nil |].
  intros Hx. simpl. destruct (decide (y = x)) as [-> | Hne]; [by eexists |].
  apply elem_of_cons in Hx as [-> | Hx]; [done |].
  destruct (IH Hx) as [j ->]. by eexists.
Qed.

Lemma index_of_NoDup {A} `{EqDecision A} (x : A) l i :
  NoDup l → l !! i = Some x → index_of x l = Some i.
Proof.
  intros Hnd Hi.
  destruct (index_of_elem_of x l) as [j Hj]; [by eapply list_elem_of_lookup_2 |].
  rewrite Hj. f_equal.
  eapply NoDup_lookup; [done | by apply index_of_lookup | done].
Qed.

Lemma index_of_None {A} `{EqDecision A} (x : A) l :
  index_of x l = None ↔ x ∉ l.
Proof.
  split.
  - intros Hnone Hin. destruct (index_of_elem_of x l Hin) as [i Hi]. congruence.
  - intros Hnot. destruct (index_of x l) as [i|] eqn:Hi; [| done].
    exfalso. apply Hnot. eapply list_elem_of_lookup_2. by apply index_of_lookup.
Qed.

Lemma elem_of_cfg_columns df p :
  p ∈ cfg_columns (get_configs df) ↔ ("model_config", p) ∈ columns df.
Proof.
  unfold get_configs. cbn [cfg_columns]. rewrite list_elem_of_omap. split.
  - intros ([ns n] & Hc & Hp). cbn [fst snd] in Hp.
    destruct (decide (ns = "model_config")) as [-> |]; [| done].
    by injection Hp as ->.
  - intros Hc. exists ("model_config", p). split; [done |]. cbn [fst snd].
    by rewrite decide_True.
Qed.

Lemma fidelity_frame_present fp df :
  Forall (λ p, ("model_config", p) ∈ columns df) fp →
  ∃ fids, fidelity_frame fp df = Ok fids.
Proof.
  intros Hall. unfold fidelity_frame, getitem.
  destruct (mapM _ fp) as [pos|] eqn:Hpos; [by eexists |].
  exfalso. apply mapM_None_1, Exists_exists in Hpos as (p & Hp & Hnone).
  apply index_of_None in Hnone. apply Hnone, elem_of_cfg_columns.
  rewrite Forall_forall in Hall. by apply Hall.
Qed.

Lemma filter_ext_in {A} (P1 P2 : A → Prop)
    `{!∀ x, Decision (P1 x), !∀ x, Decision (P2 x)} (l : list A) :
  (∀ x, x ∈ l → P1 x ↔ P2 x) → filter P1 l = filter P2 l.
Proof.
  induction l as [|x l IH]; intros Hext; [done |].
  rewrite !filter_cons.
  rewrite IH by (intros y Hy; apply Hext; by right).
  apply decide_ext, Hext. left.
Qed.

Lemma filter_fmap {A B} (f : A → B) (P : B → Prop) `{!∀ y, Decision (P y)}
    (l : list A) :
  filter P (f <$> l) = f <$> filter (λ x, P (f x)) l.
Proof.
  induction l as [|x l IH]; [done |].
  rewrite fmap_cons, !filter_cons, IH. by destruct (decide (P (f x))).
Qed.

(** Representatives commute with any selection of whole runs. *)
Lemma first_rows_filter (P : Row → Prop) `{!∀ r, Decision (P r)} (l : list Row) :
  (∀ r r', run_of r = run_of r' → P r → P r') →
  first_rows (filter P l) = filter P (first_rows l).
Proof.
  intros Hrun. induction l as [|r l IH]; [done |]. simpl.
  destruct (decide (P r)) as [HP | HP].
  - rewrite filter_cons_True by done. simpl. rewrite filter_cons_True by done.
    f_equal. rewrite IH, !list_filter_filter. apply list_filter_iff. tauto.
  - rewrite !filter_cons_False by done. rewrite IH.
    rewrite list_filter_filter. apply list_filter_iff.
    intros r'. split; [| tauto]. intros HP'. split; [done |].
    intros Heq. apply HP. by apply (Hrun r').
Qed.

Lemma elem_of_first_rows l r : r ∈ first_rows l → r ∈ l.
Proof.
  revert r. induction l as [|x l IH]; intros r; simpl; [done |].
  rewrite !elem_of_cons, list_elem_of_filter.
  intros [-> | [_ Hr]]; [by left | right; by apply IH].
Qed.

Lemma NoDup_first_rows l : NoDup (run_of <$> first_rows l).
Proof.
  induction l as [|r l IH]; [constructor |].
  cbn [first_rows]. rewrite fmap_cons. constructor.
  - rewrite list_elem_of_fmap. intros (r' & Heq & [Hne _]%list_elem_of_filter).
    by apply Hne.
  - eapply sublist_NoDup; [exact IH | apply fmap_sublist, sublist_filter].
Qed.

(** Every run of the table has a representative. *)
Lemma first_rows_covers l r :
  r ∈ l → ∃ r', r' ∈ first_rows l ∧ run_of r' = run_of r.
Proof.
  induction l as [|x l IH]; [by intros ?%elem_of_nil |].
  intros [-> | Hr]%elem_of_cons; simpl.
  - exists x. split; [left | done].
  - destruct (IH Hr) as (r' & Hr' & Heq).
    destruct (decide (run_of r' = run_of x)) as [Hx | Hx].
    + exists x. split; [left | congruence].
    + exists r'. split; [| done]. right. by apply list_elem_of_filter.
Qed.

Lemma fidelity_frame_Ok fp df fids :
  fidelity_frame fp df = Ok fids →
  ∃ pos, mapM (λ n, index_of n (cfg_columns (get_configs df))) fp = Some pos ∧
         fids = (λ r, (run_of r, fid_key (columns df) pos r)) <$> first_rows (rows df).
Proof.
  unfold fidelity_frame, getitem.
  destruct (mapM _ fp) as [pos|]; [| done].
  intros [= <-]. exists pos. split; [done |].
  simpl. by rewrite <- list_fmap_compose.
Qed.

Lemma fidelity_frame_loc fp df mask pos :
  mapM (λ n, index_of n (cfg_columns (get_configs df))) fp = Some pos →
  fidelity_frame fp (loc mask df)
  = Ok ((λ r, (run_of r, fid_key (columns df) pos r))
          <$> first_rows (filter (λ r, mask r) (rows df))).
Proof.
  intros Hpos. unfold fidelity_frame, getitem. simpl.
  change (cfg_columns (get_configs df)) with
    (omap (λ c, if decide (c.1 = "model_config") then Some c.2 else None) (columns df))
    in Hpos.
  rewrite Hpos. by rewrite <- list_fmap_compose.
Qed.

Lemma NoDup_fidelity_frame fp df fids :
  fidelity_frame fp df = Ok fids → NoDup (fids.*1).
Proof.
  intros (pos & _ & ->)%fidelity_frame_Ok.
  rewrite <- list_fmap_compose. apply NoDup_first_rows.
Qed.

(** Selecting from a frame with distinct labels the labels of one of its
    sub-lists gives back that sub-list. *)
Lemma filter_selected {A B} `{EqDecision A} (l l' : list (A * B)) :
  NoDup (l.*1) → l' `sublist_of` l →
  filter (λ f, bool_decide (f.1 ∈ l'.*1)) l = l'.
Proof.
  intros Hnd Hsub. induction Hsub as [| x l1 l2 Hsub IH | x l1 l2 Hsub IH].
  - done.
  - rewrite fmap_cons in Hnd. apply NoDup_cons in Hnd as [Hx Hnd].
    rewrite filter_cons_True by (apply bool_decide_pack; left).
    f_equal. etrans; [| exact (IH Hnd)]. apply filter_ext_in.
    intros f Hf. rewrite !bool_decide_spec, fmap_cons, elem_of_cons.
    split; [| tauto]. intros [Heq | ?]; [| done].
    exfalso. apply Hx. rewrite <- Heq. by apply list_elem_of_fmap_2.
  - rewrite fmap_cons in Hnd. apply NoDup_cons in Hnd as [Hx Hnd].
    rewrite filter_cons_False; [by apply IH |].
    rewrite bool_decide_spec. intros Hin. apply Hx.
    eapply elem_of_sublist; [exact Hin | by apply fmap_sublist].
Qed.

Lemma head_from_sublist n all seen l : head_from n all seen l `sublist_of` l.
Proof.
  revert seen. induction l as [|f l IH]; intros seen; simpl; [constructor |].
  destruct (na_key f.2); [by constructor |].
  destruct (_ <? _); by constructor.
Qed.

(** How many rows of one group [head] lets through. *)
Lemma head_from_count (n : nat) all seen l k :
  na_key k = false →
  length (filter (λ f, f.2 = k) (head_from (Z.of_nat n) all seen l))
  = ((n - length (filter (λ k', k' = k) seen)) `min` length (filter (λ f, f.2 = k) l))%nat.
Proof.
  intros Hk. revert seen. induction l as [|f l IH]; intros seen.
  - simpl. lia.
  - cbn [head_from]. destruct (na_key f.2) eqn:Hna.
    + rewrite (filter_cons_False _ f l) by congruence. apply IH.
    + replace (0 <=? Z.of_nat n) with true by (symmetry; apply Z.leb_le; lia).
      destruct (decide (f.2 = k)) as [Heq | Hne].
      * rewrite (filter_cons_True _ f l) by done.
        destruct (_ <? _) eqn:Hstop.
        -- rewrite filter_cons_True by done. cbn [length]. rewrite IH.
           rewrite filter_cons_True by done. cbn [length].
           apply Z.ltb_lt in Hstop. rewrite Heq in Hstop. lia.
        -- rewrite IH. rewrite filter_cons_True by done. cbn [length].
           apply Z.ltb_ge in Hstop. rewrite Heq in Hstop. lia.
      * rewrite (filter_cons_False _ f l) by done.
        destruct (_ <? _).
        -- rewrite filter_cons_False by done. rewrite IH.
           by rewrite filter_cons_False.
        -- rewrite IH. by rewrite filter_cons_False.
Qed.

Lemma group_size_head n fids k :
  na_key k = false → 0 ≤ n ≤ group_size fids k →
  group_size (head n fids) k = n.
Proof.
  intros Hk [Hn0 Hn]. unfold group_size in *. unfold head.
  rewrite <- (Z2Nat.id n) at 1 by done.
  rewrite head_from_count by done. simpl. lia.
Qed.

Lemma minimum_Some l m :
  minimum l = Some m → m ∈ l ∧ ∀ x, x ∈ l → m ≤ x.
Proof.
  destruct l as [|x l]; [done |]. simpl. intros [= <-].
  induction l as [|y l [IHin IHle]]; simpl.
  - split; [left |]. by intros z ->%list_elem_of_singleton.
  - split.
    + destruct (Z.min_spec y (foldr Z.min x l)) as [[_ ->] | [_ ->]].
      * right; left.
      * apply elem_of_cons in IHin as [-> | ?]; [left | right; by right].
    + intros z Hz.
      assert (Hz' : z = y ∨ z ∈ x :: l).
      { rewrite !elem_of_cons in Hz. rewrite elem_of_cons. tauto. }
      destruct Hz' as [-> | Hz']; [lia |]. specialize (IHle z Hz'). lia.
Qed.

Lemma elem_of_group_keys fids k :
  k ∈ group_keys fids ↔ na_key k = false ∧ ∃ f, f ∈ fids ∧ f.2 = k.
Proof.
  unfold group_keys.
  rewrite elem_of_drop_duplicates, list_elem_of_filter, list_elem_of_fmap.
  rewrite Is_true_true, negb_true_iff. split.
  - intros [Hna (f & -> & Hf)]. split; [done |]. by exists f.
  - intros [Hna (f & Hf & <-)]. split; [done |]. by exists f.
Qed.

(** The smallest group bounds every group from below. *)
Lemma minimum_counts fids m k :
  minimum (counts fids) = Some m → k ∈ group_keys fids →
  0 ≤ m ≤ group_size fids k.
Proof.
  intros [Hin Hle]%minimum_Some Hk. split.
  - apply list_elem_of_fmap in Hin as (k' & -> & _). unfold group_size. lia.
  - apply Hle. by apply list_elem_of_fmap_2.
Qed.

(** Of one group [head] lets through as many rows as asked for, or the
    whole group if it has fewer. *)
Lemma group_size_head_min n fids k :
  na_key k = false → 0 ≤ n →
  group_size (head n fids) k = Z.min n (group_size fids k).
Proof.
  intros Hk Hn0. unfold group_size, head.
  rewrite <- (Z2Nat.id n) at 1 by done.
  rewrite head_from_count by done. simpl. lia.
Qed.

Lemma head_from_zero all seen l : head_from 0 all seen l = [].
Proof.
  revert seen. induction l as [|f l IH]; intros seen; simpl; [done |].
  destruct (na_key f.2); [done |].
  destruct (_ <? 0) eqn:Hlt; [apply Z.ltb_lt in Hlt; lia | done].
Qed.

(** With a positive count asked for, [head] selects a row as soon as there
    is a group. *)
Lemma head_nonempty n fids : 0 < n → group_keys fids ≠ [] → head n fids ≠ [].
Proof.
  intros Hn Hkeys Hhead.
  destruct (group_keys fids) as [|k ks] eqn:Hk; [done |].
  assert (Hin : k ∈ group_keys fids) by (rewrite Hk; left).
  apply elem_of_group_keys in Hin as [Hna (f & Hf & Hfk)].
  pose proof (group_size_head_min n fids k Hna ltac:(lia)) as Hsize.
  rewrite Hhead in Hsize. unfold group_size in Hsize. cbn [filter list_filter length] in Hsize.
  assert (Hpos : (0 < length (filter (λ f, f.2 = k) fids))%nat).
  { destruct (filter (λ f, f.2 = k) fids) as [|? ?] eqn:Hfil; [| simpl; lia].
    exfalso. eapply (filter_nil_not_elem_of _ _ f Hfil); done. }
  change (Z.of_nat (length (filter (λ f0 : run_id * list cell, f0.2 = k) []))) with 0 in Hsize.
  lia.
Qed.

(** [min_sample_size] returns only when the placeholder is not a fidelity
    parameter and there is a group to take the minimum over. *)
Lemma min_sample_size_Ok fp fids frac n :
  min_sample_size fp fids frac = Ok n →
  ("check" ∉ fp) ∧ ∃ m, minimum (counts fids) = Some m ∧
                        math_floor (float_mul (float_of_int m) frac) = Ok n.
Proof.
  unfold min_sample_size. case_bool_decide; [done |].
  destruct (minimum (counts fids)) as [m|]; [by eauto |]. done.
Qed.

Lemma minimum_group_keys fids m : minimum (counts fids) = Some m → group_keys fids ≠ [].
Proof. unfold counts. by destruct (group_keys fids). Qed.

Lemma group_keys_nonempty fids : group_keys fids ≠ [] → fids ≠ [].
Proof. by intros Hk ->. Qed.

(** A fraction of zero asks for no run at all. *)
Lemma min_sample_size_zero fp fids s n :
  min_sample_size fp fids (S754_zero s) = Ok n → n = 0.
Proof.
  intros (_ & m & _ & Hfloor)%min_sample_size_Ok. revert Hfloor.
  unfold float_mul. destruct (float_of_int m); simpl; congruence.
Qed.

Lemma set_check_Ok {A} (index : list A) : index ≠ [] → set_check index = Ok ().
Proof. by destruct index. Qed.

(** What [subsample_df] returns when the fidelity frame exists and the
    number of runs to take per group is positive, and the fidelity frame of
    its result. *)
Lemma subsample_df_selects fp df frac fids n :
  fp ≠ [] →
  fidelity_frame fp df = Ok fids →
  min_sample_size fp fids frac = Ok n → 0 < n →
  let out := loc (λ r, bool_decide (run_of r ∈ (head n fids).*1)) df in
  subsample_df fp df frac = Ok out ∧ fidelity_frame fp out = Ok (head n fids).
Proof.
  intros Hfp Hfids Hn Hpos out.
  destruct (min_sample_size_Ok _ _ _ _ Hn) as (Hcheck & m & Hmin & _).
  pose proof (minimum_group_keys _ _ Hmin) as Hkeys.
  destruct (fidelity_frame_Ok _ _ _ Hfids) as (pos & Hpos' & Hmap).
  split.
  - unfold subsample_df. rewrite Hfids. cbn [mbind result_bind].
    rewrite bool_decide_eq_false_2 by done.
    rewrite (set_check_Ok fids) by by apply group_keys_nonempty.
    cbn [mbind result_bind]. destruct fp as [|p fp']; [done |].
    rewrite Hn. cbn [mbind result_bind].
    rewrite (set_check_Ok (rows df)).
    2:{ intros Hrows. rewrite Hrows in Hmap. subst fids. by apply Hkeys. }
    rewrite (set_check_Ok (head n fids)) by by apply head_nonempty.
    done.
  - unfold out. rewrite (fidelity_frame_loc _ _ _ _ Hpos'). f_equal.
    rewrite first_rows_filter.
    2:{ intros r r' Heq. by rewrite !bool_decide_spec, Heq. }
    set (F := λ r, (run_of r, fid_key (columns df) pos r)) in *.
    assert (Hsel : filter (λ f, bool_decide (f.1 ∈ (head n fids).*1)) (F <$> first_rows (rows df))
                   = F <$> filter (λ r, bool_decide (run_of r ∈ (head n fids).*1)) (first_rows (rows df)))
      by exact (filter_fmap F _ _).
    rewrite <- Hsel, <- Hmap. apply filter_selected.
    + by eapply NoDup_fidelity_frame.
    + apply head_from_sublist.
Qed.

(** The table [subsample_df] returns, when it returns one. *)
Lemma subsample_df_Ok fp df frac out :
  subsample_df fp df frac = Ok out →
  ∃ fids n, fidelity_frame fp df = Ok fids ∧
            min_sample_size fp fids frac = Ok n ∧
            head n fids ≠ [] ∧
            out = loc (λ r, bool_decide (run_of r ∈ (head n fids).*1)) df.
Proof.
  unfold subsample_df. destruct (fidelity_frame fp df) as [fids|]; [| done].
  cbn [mbind result_bind].
  destruct (if bool_decide ("check" ∈ fp) then Ok () else set_check fids)
    as [[]|]; [| done].
  cbn [mbind result_bind]. destruct fp as [|p fp']; [done |].
  destruct (min_sample_size (p :: fp') fids frac) as [n|] eqn:Hn; [| done].
  cbn [mbind result_bind].
  destruct (set_check (rows df)) as [[]|]; [| done]. cbn [mbind result_bind].
  destruct (head n fids) as [|c cs] eqn:Hc; [done |].
  cbn [set_check mbind result_bind]. intros [= <-].
  exists fids, n. rewrite Hc. done.
Qed.

Lemma subsample_df_only_removes_rows fp df frac out :
  subsample_df fp df frac = Ok out → only_removes_rows df out.
Proof.
  intros (fids & n & _ & _ & _ & ->)%subsample_df_Ok. apply loc_only_removes_rows.
Qed.

Lemma subsample_stage_only_removes_rows fp frac data out :
  subsample_stage fp frac data = Ok out → only_removes_rows data out.
Proof.
  unfold subsample_stage. destruct (float_lt frac one).
  - apply subsample_df_only_removes_rows.
  - intros [= <-]. apply only_removes_rows_refl.
Qed.

Lemma set_check_raises {A} (index : list A) cls :
  raises (set_check index) cls → cls = "ValueError".
Proof. destruct index; intros [msg [=]]. done. Qed.

Lemma math_floor_raises x cls :
  raises (math_floor x) cls → cls ∈ ["ValueError"; "OverflowError"].
Proof. destruct x; intros [msg [=]]; subst; in_list. Qed.

(** The exceptions the sub-sampling can end with. *)
Lemma subsample_df_raises fp df frac cls :
  raises (subsample_df fp df frac) cls →
  cls ∈ ["KeyError"; "ValueError"; "TypeError"; "OverflowError"].
Proof.
  intros [msg Hraise]. revert Hraise. unfold subsample_df.
  destruct (fidelity_frame fp df) as [fids | cls' msg'] eqn:Hfids;
    cbn [mbind result_bind].
  2:{ intros [= -> ->]. unfold fidelity_frame, getitem in Hfids.
      destruct (mapM _ fp); [done |]. injection Hfids as <- _. in_list. }
  assert (Hmin : ∀ n msg0, min_sample_size fp fids frac = Raise n msg0 →
            n ∈ ["KeyError"; "ValueError"; "TypeError"; "OverflowError"]).
  { intros n msg0. unfold min_sample_size. case_bool_decide.
    - intros [= <- _]. in_list.
    - intros Hfloor.
      assert (Hcls : n ∈ ["ValueError"; "OverflowError"]).
      { eapply math_floor_raises. rewrite Hfloor. by eexists. }
      apply elem_of_cons in Hcls as [-> | Hcls]; [in_list |].
      apply list_elem_of_singleton in Hcls as ->. in_list. }
  destruct (if bool_decide ("check" ∈ fp) then Ok () else set_check fids)
    as [[] | cls' msg'] eqn:Hset; cbn [mbind result_bind].
  2:{ intros [= -> ->]. destruct (bool_decide _); [done |].
      rewrite (set_check_raises fids cls) by (rewrite Hset; by eexists).
      in_list. }
  destruct fp as [|p fp']; [intros [= <- _]; in_list |].
  destruct (min_sample_size (p :: fp') fids frac) as [n | cls' msg'] eqn:Hn;
    cbn [mbind result_bind]; [| intros [= -> ->]; by eapply Hmin].
  destruct (set_check (rows df)) as [[] | cls' msg'] eqn:Hset1;
    cbn [mbind result_bind].
  2:{ intros [= -> ->].
      rewrite (set_check_raises (rows df) cls) by (rewrite Hset1; by eexists).
      in_list. }
  destruct (set_check (head n fids)) as [[] | cls' msg'] eqn:Hset2;
    cbn [mbind result_bind]; [done |].
  intros [= -> ->].
  rewrite (set_check_raises (head n fids) cls) by (rewrite Hset2; by eexists).
  in_list.
Qed.

(** A fraction of zero makes [subsample_df] fail, whatever the table. *)
Lemma subsample_df_zero fp df s :
  ∃ cls msg, subsample_df fp df (S754_zero s) = Raise cls msg.
Proof.
  destruct (subsample_df fp df (S754_zero s)) as [out | cls msg] eqn:Hout;
    [| by eauto].
  apply subsample_df_Ok in Hout as (fids & n & _ & Hn & Hhead & _).
  apply min_sample_size_zero in Hn as ->.
  exfalso. apply Hhead. apply head_from_zero.
Qed.

(** C4 (as amended). Take a table whose fidelity columns exist and which has
    at least one fidelity group, and let [n] be the number of runs per group
    that the code computes from a fraction: [math.floor] of the float
    product of the smallest group count and the fraction.  If [n] is
    positive, [subsample_df] returns a table in which every fidelity group
    of the input holds [n] runs, or all its runs if it has fewer; so every
    group holds exactly [n] runs whenever [n] is at most the smallest
    count.  If [n] is zero, [subsample_df] ends with a [ValueError] instead
    of an empty table.  The step of [clean] calls [subsample_df] only when
    [subsample < 1.0] holds; otherwise it returns the table as it is. *)
Theorem subsample_equal_group_sizes (fp : list string) (df : DataFrame)
    (frac : binary64) (fids : list (run_id * list cell)) (n : Z) :
  fp ≠ [] →
  fidelity_frame fp df = Ok fids →
  min_sample_size fp fids frac = Ok n →
  (0 < n →
   ∃ out fids',
     subsample_df fp df frac = Ok out ∧
     fidelity_frame fp out = Ok fids' ∧
     (∀ k, k ∈ group_keys fids →
           group_size fids' k = Z.min n (group_size fids k)) ∧
     (∀ m, minimum (counts fids) = Some m → n ≤ m →
           ∀ k, k ∈ group_keys fids → group_size fids' k = n) ∧
     (float_lt frac one = true → subsample_stage fp frac df = Ok out)) ∧
  (n = 0 → raises (subsample_df fp df frac) "ValueError") ∧
  (float_lt frac one = false → subsample_stage fp frac df = Ok df).
Proof.
  intros Hfp Hfids Hn. split; [| split].
  - intros Hpos.
    destruct (subsample_df_selects fp df frac fids n Hfp Hfids Hn Hpos)
      as [Hout Hfids'].
    assert (Hsize : ∀ k, k ∈ group_keys fids →
              group_size (head n fids) k = Z.min n (group_size fids k)).
    { intros k [Hna _]%elem_of_group_keys. apply group_size_head_min; [done | lia]. }
    eexists _, _. split; [exact Hout |]. split; [exact Hfids' |].
    split; [exact Hsize |]. split.
    + intros m Hmin Hle k Hk. rewrite (Hsize k Hk).
      pose proof (minimum_counts _ _ _ Hmin Hk). lia.
    + intros Hlt. unfold subsample_stage. by rewrite Hlt.
  - intros ->.
    destruct (min_sample_size_Ok _ _ _ _ Hn) as (Hcheck & m & Hmin & _).
    pose proof (group_keys_nonempty _ (minimum_group_keys _ _ Hmin)) as Hne.
    destruct (fidelity_frame_Ok _ _ _ Hfids) as (pos & _ & Hmap).
    unfold subsample_df. rewrite Hfids. cbn [mbind result_bind].
    rewrite bool_decide_eq_false_2 by done.
    rewrite (set_check_Ok fids) by done.
    cbn [mbind result_bind]. destruct fp as [|p fp']; [done |].
    rewrite Hn. cbn [mbind result_bind].
    rewrite (set_check_Ok (rows df)).
    2:{ intros Hrows. rewrite Hrows in Hmap. by subst fids. }
    cbn [mbind result_bind].
    unfold head. rewrite head_from_zero. by eexists.
  - intros Hge. unfold subsample_stage. by rewrite Hge.
Qed.

(** ** Anonymizing the index *)

Lemma elem_of_level_runs df run :
  run ∈ level_runs df ↔ ∃ r, r ∈ rows df ∧ run_of r = run.
Proof.
  unfold level_runs.
  rewrite merge_sort_Permutation, elem_of_remove_dups, list_elem_of_fmap.
  split; intros (r & ? & ?); by exists r.
Qed.

Lemma NoDup_level_runs df : NoDup (level_runs df).
Proof.
  unfold level_runs. rewrite merge_sort_Permutation. apply NoDup_remove_dups.
Qed.

(** There is a run exactly when there is a row. *)
Lemma level_runs_nil df : level_runs df = [] ↔ rows df = [].
Proof.
  split.
  - intros Hnil. destruct (rows df) as [|r rs] eqn:Hrows; [done |].
    assert (Hin : run_of r ∈ level_runs df).
    { apply elem_of_level_runs. exists r. split; [| done]. rewrite Hrows. left. }
    rewrite Hnil in Hin. by apply elem_of_nil in Hin.
  - intros Hrows. unfold level_runs. by rewrite Hrows.
Qed.

(** The values of a level that [remove_unused_levels] leaves are in use;
    a value of the level that is in use stays. *)
Lemma elem_of_remove_unused_levels_1 level used v :
  v ∈ remove_unused_levels level used → v ∈ used.
Proof.
  unfold remove_unused_levels. destruct (forallb _ level) eqn:Hall.
  - intros Hv. apply Is_true_true, forallb_True in Hall.
    rewrite Forall_forall in Hall. by apply (bool_decide_unpack _), Hall.
  - by rewrite elem_of_drop_duplicates.
Qed.

Lemma elem_of_remove_unused_levels_2 level used v :
  v ∈ level → v ∈ used → v ∈ remove_unused_levels level used.
Proof.
  unfold remove_unused_levels. destruct (forallb _ level); [done |].
  by rewrite elem_of_drop_duplicates.
Qed.

Lemma NoDup_remove_unused_levels level used :
  NoDup level → NoDup (remove_unused_levels level used).
Proof.
  unfold remove_unused_levels. destruct (forallb _ level); [done |].
  intros _. apply NoDup_drop_duplicates.
Qed.

Lemma elem_of_level_epochs_1 df e :
  e ∈ level_epochs df → ∃ r, r ∈ rows df ∧ Epoch r = e.
Proof.
  intros He%elem_of_remove_unused_levels_1.
  apply list_elem_of_fmap in He as (r & -> & Hr). by exists r.
Qed.

Lemma elem_of_level_epochs_2 df r :
  index_wf df → r ∈ rows df → Epoch r ∈ level_epochs df.
Proof.
  intros (_ & _ & _ & Hwf) Hr. rewrite Forall_forall in Hwf.
  apply elem_of_remove_unused_levels_2; [by apply Hwf |].
  by apply list_elem_of_fmap_2.
Qed.

Lemma NoDup_level_epochs df : index_wf df → NoDup (level_epochs df).
Proof. intros (_ & _ & Hnd & _). by apply NoDup_remove_unused_levels. Qed.

Lemma model_index_lookup df i run :
  level_runs df !! i = Some run → model_index df run = Z.of_nat i.
Proof.
  intros Hi. unfold model_index.
  by rewrite (index_of_NoDup _ _ _ (NoDup_level_runs df) Hi).
Qed.

(** The ModelIndex values are the numbers 0, 1, ..., one per run. *)
Lemma model_index_dense df :
  model_index df <$> level_runs df
  = Z.of_nat <$> seq 0 (length (level_runs df)).
Proof.
  apply list_eq. intros i. rewrite !list_lookup_fmap.
  destruct (level_runs df !! i) as [run|] eqn:Hi; simpl.
  - rewrite lookup_seq_lt by (by eapply lookup_lt_Some). simpl.
    f_equal. by apply model_index_lookup.
  - rewrite lookup_seq_ge; [done |]. by apply lookup_ge_None.
Qed.

Lemma model_index_inj df run1 run2 :
  run1 ∈ level_runs df → run2 ∈ level_runs df →
  model_index df run1 = model_index df run2 → run1 = run2.
Proof.
  intros (i1 & H1)%list_elem_of_lookup_1 (i2 & H2)%list_elem_of_lookup_1.
  rewrite (model_index_lookup _ _ _ H1), (model_index_lookup _ _ _ H2).
  intros Heq%(inj Z.of_nat). subst i2. congruence.
Qed.

(** An integer of at most 53 bits is a float. *)
Lemma float64_of_int_small z : Z.abs z ≤ 2 ^ 53 → float64_of_int z = z.
Proof.
  intros Hz. unfold float64_of_int.
  destruct (Z.log2 (Z.abs z) - 52 <=? 0) eqn:Hk; [done |].
  apply Z.leb_gt in Hk.
  assert (Hpos : 0 < Z.abs z).
  { destruct (decide (Z.abs z = 0)) as [H0 | H0]; [by rewrite H0 in Hk | lia]. }
  pose proof (Z.log2_spec _ Hpos) as [Hlo _].
  assert (Hpow : 2 ^ 53 ≤ 2 ^ Z.log2 (Z.abs z)) by (apply Z.pow_le_mono_r; lia).
  assert (Hcases : z = 2 ^ 53 ∨ z = - 2 ^ 53) by lia.
  destruct Hcases as [-> | ->]; by vm_compute.
Qed.

Lemma maybe_promote_isna full dt c : isna (maybe_promote full dt c) = isna c.
Proof. by destruct full, dt, c. Qed.

Lemma forallb_imap_isna (f : nat → cell → cell) vs :
  (∀ i c, isna (f i c) = isna c) →
  forallb isna (imap f vs) = forallb isna vs.
Proof.
  revert f. induction vs as [|c vs IH]; intros f Hf; [done |].
  rewrite imap_cons. cbn [forallb]. rewrite Hf. f_equal.
  apply IH. intros i c'. apply Hf.
Qed.

Lemma existsb_imap_isna (f : nat → cell → cell) vs :
  (∀ i c, isna (f i c) = isna c) →
  existsb isna (imap f vs) = existsb isna vs.
Proof.
  revert f. induction vs as [|c vs IH]; intros f Hf; [done |].
  rewrite imap_cons. cbn [existsb]. rewrite Hf. f_equal.
  apply IH. intros i c'. apply Hf.
Qed.

Lemma imap_id {A} (f : nat → A → A) (l : list A) :
  (∀ i x, x ∈ l → f i x = x) → imap f l = l.
Proof.
  revert f. induction l as [|x l IH]; intros f Hf; [done |].
  rewrite imap_cons. f_equal; [apply Hf; left |].
  apply IH. intros i y Hy. apply Hf. by right.
Qed.

(** The wide frame neither adds nor removes a NaN of a row. *)
Lemma new_values_forallb df vs :
  forallb isna (new_values df vs) = forallb isna vs.
Proof. apply forallb_imap_isna. intros i c. apply maybe_promote_isna. Qed.

Lemma new_values_existsb df vs :
  existsb isna (new_values df vs) = existsb isna vs.
Proof. apply existsb_imap_isna. intros i c. apply maybe_promote_isna. Qed.

(** The cells of a row pass through the wide frame unchanged when the
    frame has no cell to fill, and also when the integers of the row have
    at most 53 bits. *)
Lemma new_values_full df vs : mask_all df = true → new_values df vs = vs.
Proof.
  intros Hfull. unfold new_values. rewrite Hfull. apply imap_id.
  intros i c _. by destruct (default object _).
Qed.

Lemma new_values_small df vs :
  Forall (λ c, ∀ z, c = Num z → Z.abs z ≤ 2 ^ 53) vs → new_values df vs = vs.
Proof.
  intros Hsmall. apply imap_id. intros i c Hc.
  rewrite Forall_forall in Hsmall. specialize (Hsmall c Hc).
  destruct (mask_all df), (default object _), c as [| z |]; simpl; try done.
  by rewrite float64_of_int_small by by apply Hsmall.
Qed.

Lemma new_values_length df vs : length (new_values df vs) = length vs.
Proof. apply length_imap. Qed.

Lemma block_of_row df r :
  NoDup (key_of <$> rows df) → r ∈ rows df →
  block_of df (run_of r) (Epoch r) = new_values df (vals r).
Proof.
  intros Hnd Hr. unfold block_of.
  destruct (filter _ (rows df)) as [|r' l] eqn:Hf.
  - exfalso. eapply (filter_nil_not_elem_of _ _ r Hf); done.
  - assert (Hr' : r' ∈ filter (λ r0, key_of r0 = (run_of r, Epoch r)) (rows df))
      by (rewrite Hf; left).
    apply list_elem_of_filter in Hr' as [Hkey Hin].
    by rewrite (key_of_inj _ r' r Hnd Hin Hr Hkey).
Qed.

(** A block with a value in it comes from a row of the table. *)
Lemma block_of_value df run e :
  forallb isna (block_of df run e) = false →
  ∃ r, r ∈ rows df ∧ key_of r = (run, e) ∧
       new_values df (vals r) = block_of df run e.
Proof.
  unfold block_of. destruct (filter _ (rows df)) as [|r l] eqn:Hf.
  - intros Hna. exfalso. revert Hna.
    induction (length (columns df)) as [|n IH]; simpl; [done | exact IH].
  - intros _. exists r.
    assert (Hr : r ∈ filter (λ r0, key_of r0 = (run, e)) (rows df))
      by (rewrite Hf; left).
    apply list_elem_of_filter in Hr as [Hkey Hin]. done.
Qed.

Lemma elem_of_zip_l_fst {A B} (l : list A) (k : list B) a b :
  (a, b) ∈ zip l k → a ∈ l.
Proof.
  revert k. induction l as [|x l IH]; intros [|y k]; simpl;
    try by intros ?%elem_of_nil.
  intros [[= -> ->] | Hin]%elem_of_cons; [left | right; by eapply IH].
Qed.

Lemma NoDup_zip_l {A B} (l : list A) (k : list B) : NoDup l → NoDup (zip l k).
Proof.
  intros Hnd. revert k. induction Hnd as [|x l Hx Hnd IH]; intros [|y k];
    simpl; try constructor; [| by apply IH].
  intros Hin. apply Hx. by eapply elem_of_zip_l_fst.
Qed.

Lemma zip_functional {A B} (l : list A) (k : list B) a b1 b2 :
  NoDup l → (a, b1) ∈ zip l k → (a, b2) ∈ zip l k → b1 = b2.
Proof.
  intros Hnd. revert k. induction Hnd as [|x l Hx Hnd IH]; intros [|y k];
    simpl; try by intros ?%elem_of_nil.
  intros [E1 | H1]%elem_of_cons [E2 | H2]%elem_of_cons.
  - congruence.
  - exfalso. injection E1 as -> _. apply Hx. by eapply elem_of_zip_l_fst.
  - exfalso. injection E2 as -> _. apply Hx. by eapply elem_of_zip_l_fst.
  - by eapply IH.
Qed.

Lemma NoDup_omap_inj {A B} (g : A → option B) (l : list A) :
  (∀ x1 x2 y, g x1 = Some y → g x2 = Some y → x1 = x2) →
  NoDup l → NoDup (omap g l).
Proof.
  intros Hinj. induction 1 as [|x l Hx Hnd IH]; csimpl; [constructor |].
  destruct (g x) as [y|] eqn:Hy; [| done].
  constructor; [| done].
  intros (x' & Hx' & Hy')%list_elem_of_omap.
  apply Hx. by rewrite (Hinj x x' y).
Qed.

Lemma zip_fmap_same {A B} (f : A → B) (l : list A) :
  zip l (f <$> l) = (λ x, (x, f x)) <$> l.
Proof. induction l as [|x l IH]; [done |]. csimpl. by rewrite IH. Qed.

(** What [anonymize] does on a table with distinct labels and a row: the
    long rows of one ModelIndex, and all of them. *)
Lemma stack_rows_spec (level : list Z) (i : Z) (ebs : list (Z * list cell)) o :
  o ∈ omap (λ eb, if forallb isna eb.2 then None else Some (mkLong i eb.1 eb.2))
           (merge_sort (λ a b, position_leb level a.1 b.1) ebs)
  ↔ ∃ e b, (e, b) ∈ ebs ∧ forallb isna b = false ∧ o = mkLong i e b.
Proof.
  rewrite list_elem_of_omap. split.
  - intros ([e b] & Hin & Ho). rewrite merge_sort_Permutation in Hin.
    simpl in Ho. destruct (forallb isna b) eqn:Hna; [done |].
    injection Ho as <-. by exists e, b.
  - intros (e & b & Hin & Hna & ->). exists (e, b).
    split; [by rewrite merge_sort_Permutation |]. simpl. by rewrite Hna.
Qed.

Lemma anonymize_Ok df out :
  anonymize df = Ok out →
  NoDup (key_of <$> rows df) ∧ rows df ≠ [] ∧
  out = (ib ← zip (Z.of_nat <$> seq 0 (length (level_runs df)))
                  ((λ run, block_of df run <$> level_epochs df) <$> level_runs df);
         omap (λ eb, if forallb isna eb.2 then None
                     else Some (mkLong ib.1 eb.1 eb.2))
              (merge_sort (λ a b, position_leb (level_Epoch (index_levels df)) a.1 b.1)
                          (zip (level_epochs df) ib.2))).
Proof.
  unfold anonymize, unstack. case_decide as Hnd; [| done].
  cbn [mbind result_bind]. unfold stack, reset_index.
  cbn [w_index w_blocks w_epochs w_level].
  case_decide as Hidx; [done |]. intros [= <-].
  split; [done |]. split; [| done].
  intros Hrows. apply Hidx. apply level_runs_nil in Hrows. by rewrite Hrows.
Qed.

Lemma anonymize_returns df :
  NoDup (key_of <$> rows df) → rows df ≠ [] → ∃ out, anonymize df = Ok out.
Proof.
  intros Hnd Hrows. unfold anonymize, unstack. rewrite decide_True by done.
  cbn [mbind result_bind]. unfold stack, reset_index.
  cbn [w_index w_blocks w_epochs w_level].
  rewrite decide_False; [by eexists |].
  intros Hidx. apply Hrows, level_runs_nil.
  apply (f_equal length) in Hidx. rewrite length_fmap, length_seq in Hidx.
  by apply nil_length_inv.
Qed.

(** A table without rows cannot be anonymized: [stack] fails. *)
Lemma anonymize_no_rows df :
  rows df = [] →
  anonymize df = Raise "ValueError" "Must pass non-zero number of levels/codes".
Proof.
  intros Hrows. unfold anonymize, unstack. rewrite Hrows.
  rewrite decide_True by constructor.
  cbn [mbind result_bind]. unfold stack, reset_index.
  cbn [w_index w_blocks w_epochs w_level].
  apply level_runs_nil in Hrows. by rewrite Hrows.
Qed.

Lemma anonymize_duplicates df :
  ¬ NoDup (key_of <$> rows df) →
  anonymize df = Raise "ValueError" "Index contains duplicate entries, cannot reshape".
Proof. intros Hdup. unfold anonymize, unstack. by rewrite decide_False. Qed.

Lemma anonymize_raises df cls : raises (anonymize df) cls → cls = "ValueError".
Proof.
  intros [msg Hraise].
  destruct (decide (NoDup (key_of <$> rows df))) as [Hnd | Hnd].
  - destruct (decide (rows df = [])) as [Hrows | Hrows].
    + rewrite anonymize_no_rows in Hraise by done. congruence.
    + destruct (anonymize_returns df Hnd Hrows) as [out Hout]. congruence.
  - rewrite anonymize_duplicates in Hraise by done. congruence.
Qed.

(** The rows of the long table. *)
Lemma elem_of_anonymize df out o :
  anonymize df = Ok out →
  o ∈ out ↔
  ∃ i run e, level_runs df !! i = Some run ∧ e ∈ level_epochs df ∧
             forallb isna (block_of df run e) = false ∧
             o = mkLong (Z.of_nat i) e (block_of df run e).
Proof.
  intros (_ & _ & ->)%anonymize_Ok.
  rewrite list_elem_of_bind. split.
  - intros ([ix blk] & Ho & Hib). cbn [fst snd] in Ho.
    apply elem_of_lookup_zip_with in Hib as (i & ix' & blk' & [= <- <-] & Hix & Hblk).
    rewrite list_lookup_fmap in Hix. rewrite list_lookup_fmap in Hblk.
    destruct (level_runs df !! i) as [run|] eqn:Hrun; [| done].
    injection Hblk as <-.
    destruct (seq 0 _ !! i) as [i'|] eqn:Hseq; [| done].
    apply lookup_seq in Hseq as [-> _]. injection Hix as <-.
    rewrite zip_fmap_same in Ho.
    apply stack_rows_spec in Ho as (e & b & Heb & Hna & ->).
    apply list_elem_of_fmap in Heb as (e' & [= -> ->] & He).
    by exists i, run, e'.
  - intros (i & run & e & Hrun & He & Hna & ->).
    exists (Z.of_nat i, block_of df run <$> level_epochs df). split.
    + cbn [fst snd]. rewrite zip_fmap_same. apply stack_rows_spec.
      exists e, (block_of df run e). split; [| done].
      by apply (list_elem_of_fmap_2 (λ x, (x, block_of df run x))).
    + apply elem_of_lookup_zip_with.
      exists i, (Z.of_nat i), (block_of df run <$> level_epochs df).
      split; [done |]. rewrite !list_lookup_fmap, Hrun.
      rewrite lookup_seq_lt by (by eapply lookup_lt_Some). done.
Qed.

(** The long table has one row per (ModelIndex, Epoch). *)
Lemma NoDup_anonymize df out :
  index_wf df → anonymize df = Ok out → NoDup out.
Proof.
  intros Hwf (_ & _ & ->)%anonymize_Ok.
  pose proof (NoDup_level_epochs df Hwf) as Hep.
  assert (Hidx : NoDup (Z.of_nat <$> seq 0 (length (level_runs df))))
    by apply (NoDup_fmap_2 _), NoDup_seq.
  apply NoDup_bind.
  - intros [i1 b1] [i2 b2] o H1 H2
      (e1 & c1 & _ & _ & Ho1)%stack_rows_spec (e2 & c2 & _ & _ & Ho2)%stack_rows_spec.
    cbn [fst snd] in *. rewrite Ho1 in Ho2. injection Ho2 as Hi _ _. subst i2.
    f_equal. exact (zip_functional _ _ _ _ _ Hidx H1 H2).
  - intros [i b] _. cbn [fst snd]. apply NoDup_omap_inj.
    + intros [e1 c1] [e2 c2] o. simpl.
      destruct (forallb isna c1); [done |].
      destruct (forallb isna c2); [done |].
      intros [= <-] [= -> ->]. done.
    + rewrite merge_sort_Permutation. by apply NoDup_zip_l.
  - by apply NoDup_zip_l.
Qed.

(** The round trip through the wide table re-keys the rows, converts their
    cells as the wide table must, and does nothing else, provided the
    labels are distinct and no row is entirely NaN. *)
Lemma anonymize_permutation df :
  NoDup (key_of <$> rows df) → index_wf df → rows df ≠ [] →
  (∀ r, r ∈ rows df → forallb isna (vals r) = false) →
  ∃ out,
    anonymize df = Ok out ∧
    out ≡ₚ (λ r, mkLong (model_index df (run_of r)) (Epoch r)
                        (new_values df (vals r))) <$> rows df.
Proof.
  intros Hnd Hwf Hrows Hval.
  destruct (anonymize_returns df Hnd Hrows) as (out & Hout).
  exists out. split; [done |].
  assert (Hrun : ∀ r, r ∈ rows df → run_of r ∈ level_runs df).
  { intros r Hr. apply elem_of_level_runs. by exists r. }
  apply NoDup_Permutation; [by eapply NoDup_anonymize | |].
  - apply NoDup_fmap_2_strong; [| by eapply NoDup_fmap_1].
    intros r1 r2 H1 H2 [= Hidx Hep _].
    apply (key_of_inj _ _ _ Hnd H1 H2). unfold key_of. f_equal; [| done].
    apply (model_index_inj df); auto.
  - intros o. rewrite (elem_of_anonymize _ _ _ Hout), list_elem_of_fmap. split.
    + intros (i & run & e & Hi & He & Hna & ->).
      destruct (block_of_value _ _ _ Hna) as (r & Hr & Hkey & Hvals).
      exists r. split; [| done]. injection Hkey as Hrun' He'.
      rewrite Hvals, He', Hrun'. f_equal. symmetry. by apply model_index_lookup.
    + intros (r & -> & Hr).
      destruct (list_elem_of_lookup_1 _ _ (Hrun r Hr)) as [i Hi].
      exists i, (run_of r), (Epoch r).
      rewrite (block_of_row _ _ Hnd Hr), (model_index_lookup _ _ _ Hi).
      split; [done |]. split; [by apply elem_of_level_epochs_2 |].
      split; [| done]. rewrite new_values_forallb. by apply Hval.
Qed.

(** ** The pipeline *)

Lemma only_removes_rows_trans d1 d2 d3 :
  only_removes_rows d1 d2 → only_removes_rows d2 d3 → only_removes_rows d1 d3.
Proof.
  intros [Hc1 Hr1] [Hc2 Hr2]. split; [congruence | by etrans].
Qed.

(** No filtering step touches the levels of the index or the types of the
    columns. *)
Lemma completeness_filter_schema b epochs data :
  index_levels (completeness_filter b epochs data) = index_levels data ∧
  dtypes (completeness_filter b epochs data) = dtypes data.
Proof. by destruct b. Qed.

Lemma nan_filter_schema b data :
  index_levels (nan_filter b data) = index_levels data ∧
  dtypes (nan_filter b data) = dtypes data.
Proof. by destruct b. Qed.

Lemma subsample_stage_schema fp frac data out :
  subsample_stage fp frac data = Ok out →
  index_levels out = index_levels data ∧ dtypes out = dtypes data.
Proof.
  unfold subsample_stage. destruct (float_lt frac one).
  - by intros (fids & n & _ & _ & _ & ->)%subsample_df_Ok.
  - by intros [= <-].
Qed.

Lemma clean_filters_Ok fp raw epochs b1 b2 frac data :
  clean_filters fp raw epochs b1 b2 frac = Ok data →
  only_removes_rows raw data ∧
  rows data `sublist_of` rows (truncate_epochs epochs raw) ∧
  rows data `sublist_of`
    rows (nan_filter b2 (completeness_filter b1 epochs (truncate_epochs epochs raw))) ∧
  index_levels data = index_levels raw ∧
  dtypes data = dtypes raw.
Proof.
  unfold clean_filters. intros Hstage.
  pose proof (subsample_stage_schema _ _ _ _ Hstage) as [Hl Hd].
  apply subsample_stage_only_removes_rows in Hstage as [Hc Hsub].
  pose proof (nan_filter_only_removes_rows b2
    (completeness_filter b1 epochs (truncate_epochs epochs raw))) as [Hc1 Hs1].
  pose proof (completeness_filter_only_removes_rows b1 epochs
    (truncate_epochs epochs raw)) as [Hc2 Hs2].
  pose proof (loc_only_removes_rows (λ r, Epoch r <=? epochs) raw) as [Hc3 Hs3].
  fold (truncate_epochs epochs raw) in Hc3, Hs3.
  assert (Hs : rows data `sublist_of` rows (truncate_epochs epochs raw)).
  { etrans; [exact Hsub |]. etrans; [exact Hs1 | exact Hs2]. }
  split; [split; [congruence | by etrans] |].
  split; [done |]. split; [done |].
  pose proof (nan_filter_schema b2
    (completeness_filter b1 epochs (truncate_epochs epochs raw))) as [Hl1 Hd1].
  pose proof (completeness_filter_schema b1 epochs
    (truncate_epochs epochs raw)) as [Hl2 Hd2].
  split; [by rewrite Hl, Hl1, Hl2 | by rewrite Hd, Hd1, Hd2].
Qed.

(** A table made of rows of a well-indexed table, under the same levels, is
    well indexed. *)
Lemma index_wf_sublist df df' :
  index_levels df' = index_levels df → rows df' `sublist_of` rows df →
  index_wf df → index_wf df'.
Proof.
  intros Hl Hsub (H1 & H2 & H3 & Hall). unfold index_wf. rewrite Hl.
  split; [done |]. split; [done |]. split; [done |].
  rewrite Forall_forall in Hall. apply Forall_forall. intros r Hr.
  apply Hall. by eapply elem_of_sublist.
Qed.

(** The exceptions the modelled part of [clean] can end with: those of the
    sub-sampling and those of [unstack] and [stack]. *)
Lemma clean_raises fp data epochs b1 b2 frac cls :
  raises (clean fp data epochs b1 b2 frac) cls →
  cls ∈ ["KeyError"; "ValueError"; "TypeError"; "OverflowError"].
Proof.
  intros [msg Hraise]. revert Hraise. unfold clean, clean_filters, subsample_stage.
  destruct (float_lt frac one).
  - destruct (subsample_df _ _ _) as [d | cls' msg'] eqn:Hsub;
      cbn [mbind result_bind].
    + intros Ha. rewrite (anonymize_raises d cls) by by exists msg.
      in_list.
    + intros [= -> ->]. eapply subsample_df_raises. rewrite Hsub.
      by exists msg.
  - cbn [mbind result_bind]. intros Ha.
    rewrite (anonymize_raises _ cls) by by exists msg. in_list.
Qed.

Lemma clean_Ok fp raw epochs b1 b2 frac out :
  clean fp raw epochs b1 b2 frac = Ok out →
  ∃ data, clean_filters fp raw epochs b1 b2 frac = Ok data ∧
          anonymize data = Ok out.
Proof.
  unfold clean. destruct (clean_filters _ _ _ _ _ _) as [data|]; [| done].
  cbn [mbind result_bind]. intros Hout. by exists data.
Qed.

(** C10. Each of the four filtering steps keeps the columns and removes
    whole rows only: what it returns is a sub-list of the rows it was given
    (same cells, same relative order).  The first three steps always
    return; the sub-sampling step returns whenever no sub-sampling is asked
    for and may otherwise end with an exception of pandas or Python, in
    which case there is no table at all. *)
Theorem filtering_stages_only_remove_rows (fp : list string) (data : DataFrame)
    (epochs : Z) (keep_incomplete_runs keep_nan_configs : bool) (frac : binary64) :
  only_removes_rows data (truncate_epochs epochs data) ∧
  only_removes_rows data (completeness_filter keep_incomplete_runs epochs data) ∧
  only_removes_rows data (nan_filter keep_nan_configs data) ∧
  match subsample_stage fp frac data with
  | Ok out => only_removes_rows data out
  | Raise cls _ =>
      float_lt frac one = true ∧
      cls ∈ ["KeyError"; "ValueError"; "TypeError"; "OverflowError"]
  end.
Proof.
  split; [apply loc_only_removes_rows |].
  split; [apply completeness_filter_only_removes_rows |].
  split; [apply nan_filter_only_removes_rows |].
  destruct (subsample_stage fp frac data) as [out | cls msg] eqn:Hstage.
  - by eapply subsample_stage_only_removes_rows.
  - unfold subsample_stage in Hstage.
    destruct (float_lt frac one) eqn:Hlt; [| done]. split; [done |].
    eapply subsample_df_raises. rewrite Hstage. by exists msg.
Qed.

(** C2 (as amended). A horizon [epochs ≤ 0] is not rejected: [clean] never
    ends with an [InvalidHorizon] error.  The truncation keeps exactly the
    rows with [Epoch ≤ epochs], the later steps run on them, and every row
    of the table that [clean] builds has its Epoch at or below the horizon;
    when the row labels are distinct, no sub-sampling is asked for and some
    row is left after the NaN step, [clean] does build its table. *)
Theorem clean_accepts_nonpositive_horizon (fp : list string) (data : DataFrame)
    (epochs : Z) (keep_incomplete_runs keep_nan_configs : bool) (frac : binary64) :
  epochs ≤ 0 →
  ¬ raises (clean fp data epochs keep_incomplete_runs keep_nan_configs frac)
           "InvalidHorizon" ∧
  (∀ r, r ∈ rows (truncate_epochs epochs data) ↔ r ∈ rows data ∧ Epoch r ≤ epochs) ∧
  (∀ out o,
      clean fp data epochs keep_incomplete_runs keep_nan_configs frac = Ok out →
      o ∈ out → long_Epoch o ≤ epochs) ∧
  (NoDup (key_of <$> rows data) → float_lt frac one = false →
   rows (nan_filter keep_nan_configs
           (completeness_filter keep_incomplete_runs epochs
              (truncate_epochs epochs data))) ≠ [] →
   ∃ out, clean fp data epochs keep_incomplete_runs keep_nan_configs frac = Ok out).
Proof.
  intros _. split; [| split; [| split]].
  - intros Hraise%clean_raises. not_in_list Hraise.
  - apply elem_of_truncate_epochs.
  - intros out o (d & Hd & Hout)%clean_Ok Ho.
    apply (elem_of_anonymize _ _ _ Hout) in Ho as (i & run & e & _ & He & _ & ->).
    apply elem_of_level_epochs_1 in He as (r & Hr & <-). simpl.
    apply clean_filters_Ok in Hd as (_ & Hsub & _).
    by apply (elem_of_sublist _ _ _ Hr), elem_of_truncate_epochs in Hsub as [_ ?].
  - intros Hnd Hfrac Hrows. unfold clean, clean_filters, subsample_stage.
    rewrite Hfrac. cbn [mbind result_bind].
    set (d := nan_filter _ _) in *.
    destruct (anonymize_returns d) as (out & Hout); [| done | by exists out].
    eapply sublist_NoDup; [exact Hnd |]. apply fmap_sublist.
    etrans; [apply nan_filter_only_removes_rows |].
    etrans; [apply completeness_filter_only_removes_rows |].
    apply (loc_only_removes_rows _ data).
Qed.

Lemma float_lt_zero_one s : float_lt (S754_zero s) one = true.
Proof. by destruct s. Qed.

(** With a fraction of zero and the fidelity columns in place, every way
    through [subsample_df] ends in a [ValueError]. *)
Lemma subsample_df_zero_ValueError fp df s :
  Forall (λ p, ("model_config", p) ∈ columns df) fp → "check" ∉ fp →
  raises (subsample_df fp df (S754_zero s)) "ValueError".
Proof.
  intros Hcols Hcheck.
  destruct (fidelity_frame_present fp df Hcols) as [fids Hfids].
  unfold subsample_df. rewrite Hfids. cbn [mbind result_bind].
  rewrite bool_decide_eq_false_2 by done.
  destruct fids as [|f fids'] eqn:Hf; cbn [set_check mbind result_bind];
    [by eexists |]. rewrite <- Hf. clear Hf.
  destruct fp as [|p fp']; [by eexists |].
  unfold min_sample_size. rewrite bool_decide_eq_false_2 by done.
  assert (Hfloor : ∀ x, math_floor (float_mul x (S754_zero s)) = Ok 0 ∨
                        raises (math_floor (float_mul x (S754_zero s))) "ValueError").
  { intros x. destruct x; simpl; first [by left | right; by eexists]. }
  match goal with |- context [math_floor (float_mul ?x _)] =>
    destruct (Hfloor x) as [-> | [msg ->]] end; cbn [mbind result_bind];
    [| by eexists].
  destruct (rows df); cbn [set_check mbind result_bind]; [by eexists |].
  unfold head. rewrite head_from_zero. by eexists.
Qed.

(** The classes of exception [subsample_df] can end with at fraction zero. *)
Lemma subsample_df_zero_raises fp df s cls :
  raises (subsample_df fp df (S754_zero s)) cls →
  cls ∈ ["KeyError"; "ValueError"; "TypeError"].
Proof.
  intros [msg Hraise]. revert Hraise. unfold subsample_df.
  destruct (fidelity_frame fp df) as [fids | cls' msg'] eqn:Hfids;
    cbn [mbind result_bind].
  2:{ intros [= -> ->]. unfold fidelity_frame, getitem in Hfids.
      destruct (mapM _ fp); [done |]. injection Hfids as <- _. in_list. }
  destruct (if bool_decide ("check" ∈ fp) then Ok () else set_check fids)
    as [[] | cls' msg'] eqn:Hset; cbn [mbind result_bind].
  2:{ intros [= -> ->]. destruct (bool_decide _); [done |].
      rewrite (set_check_raises fids cls) by (rewrite Hset; by eexists).
      in_list. }
  destruct fp as [|p fp']; [intros [= <- _]; in_list |].
  destruct (min_sample_size (p :: fp') fids (S754_zero s)) as [n | cls' msg'] eqn:Hn;
    cbn [mbind result_bind].
  - destruct (set_check (rows df)) as [[] | cls' msg'] eqn:Hset1;
      cbn [mbind result_bind].
    2:{ intros [= -> ->].
        rewrite (set_check_raises (rows df) cls) by (rewrite Hset1; by eexists).
        in_list. }
    destruct (set_check (head n fids)) as [[] | cls' msg'] eqn:Hset2;
      cbn [mbind result_bind]; [done |].
    intros [= -> ->].
    rewrite (set_check_raises (head n fids) cls) by (rewrite Hset2; by eexists).
    in_list.
  - intros [= -> ->]. revert Hn. unfold min_sample_size. case_bool_decide.
    + intros [= <- _]. in_list.
    + destruct (minimum _) as [m|]; [| intros [= <- _]; in_list].
      unfold float_mul. destruct (float_of_int m); simpl; intros [= <- _]; in_list.
Qed.

(** C3 (as amended). No sub-sampling fraction is rejected: whatever [frac]
    is, [clean] never ends with an [InvalidFraction] error.  A fraction for
    which [subsample < 1.0] does not hold, so one that is 1 or above 1,
    makes the pipeline skip the sub-sampling and keep the table as it is.
    A fraction of zero is handed to [subsample_df], which then fails with
    an exception of pandas or Python, and [clean] with it: a [ValueError]
    when the fidelity columns are in place. *)
Theorem clean_accepts_any_fraction (fp : list string) (data : DataFrame)
    (epochs : Z) (keep_incomplete_runs keep_nan_configs : bool) (frac : binary64) :
  ¬ raises (clean fp data epochs keep_incomplete_runs keep_nan_configs frac)
           "InvalidFraction" ∧
  (float_lt frac one = false → subsample_stage fp frac data = Ok data) ∧
  (∀ s, frac = S754_zero s →
     (∃ cls msg, subsample_stage fp frac data = Raise cls msg ∧
                 cls ∈ ["KeyError"; "ValueError"; "TypeError"]) ∧
     (∃ cls msg,
        clean fp data epochs keep_incomplete_runs keep_nan_configs frac
          = Raise cls msg ∧
        cls ∈ ["KeyError"; "ValueError"; "TypeError"]) ∧
     (Forall (λ p, ("model_config", p) ∈ columns data) fp → "check" ∉ fp →
      raises (subsample_stage fp frac data) "ValueError" ∧
      raises (clean fp data epochs keep_incomplete_runs keep_nan_configs frac)
             "ValueError")).
Proof.
  split; [| split].
  - intros Hraise%clean_raises. not_in_list Hraise.
  - intros Hfrac. unfold subsample_stage. by rewrite Hfrac.
  - intros s ->.
    assert (Hstage : ∀ d, subsample_stage fp (S754_zero s) d
                          = subsample_df fp d (S754_zero s)).
    { intros d. unfold subsample_stage. by rewrite float_lt_zero_one. }
    assert (Hzero : ∀ d, ∃ cls msg,
              subsample_df fp d (S754_zero s) = Raise cls msg ∧
              cls ∈ ["KeyError"; "ValueError"; "TypeError"]).
    { intros d. destruct (subsample_df_zero fp d s) as (cls & msg & Hr).
      exists cls, msg. split; [done |].
      eapply subsample_df_zero_raises. rewrite Hr. by eexists. }
    split; [| split].
    + rewrite Hstage. apply Hzero.
    + unfold clean, clean_filters. rewrite Hstage.
      destruct (Hzero (nan_filter keep_nan_configs
                         (completeness_filter keep_incomplete_runs epochs
                            (truncate_epochs epochs data))))
        as (cls & msg & -> & Hcls).
      by exists cls, msg.
    + intros Hcols Hcheck. split.
      * rewrite Hstage. by apply subsample_df_zero_ValueError.
      * unfold clean, clean_filters. rewrite Hstage.
        destruct (subsample_df_zero_ValueError fp
                    (nan_filter keep_nan_configs
                       (completeness_filter keep_incomplete_runs epochs
                          (truncate_epochs epochs data))) s)
          as [msg ->]; [| done | by eexists].
        destruct keep_nan_configs, keep_incomplete_runs; exact Hcols.
Qed.

Lemma nan_check_value (r : Row) :
  nan_check r = false → vals r ≠ [] → forallb isna (vals r) = false.
Proof.
  unfold nan_check. destruct (vals r) as [|c l]; [done |]. simpl.
  intros [Hc _]%orb_false_iff _. by rewrite Hc.
Qed.

(** C5 (as amended). Take a raw table whose row labels (taskid, model_idx,
    Epoch) are distinct and are values of the levels of its index, and which
    has at least one column, and let [data] be what the four filtering steps
    hand to the anonymization.  If [data] has no row, the round trip fails
    with a [ValueError].  Otherwise it returns a table that is, up to the
    order of rows, the input with every run label replaced by its
    ModelIndex and the cells as the wide table holds them: the same number
    of rows, the same Epoch in every row, the same number of epochs for
    every run, and the ModelIndex values are exactly 0, 1, ..., one per
    run.  The cells are those of the input when every run has a row for
    every epoch, and also when no integer of the table has more than 53
    bits. *)
Theorem anonymize_preserves_rows (fp : list string) (raw : DataFrame)
    (epochs : Z) (keep_incomplete_runs keep_nan_configs : bool) (frac : binary64)
    (data : DataFrame) :
  NoDup (key_of <$> rows raw) →
  index_wf raw →
  Forall (λ r, vals r ≠ []) (rows raw) →
  clean_filters fp raw epochs keep_incomplete_runs keep_nan_configs frac = Ok data →
  (rows data = [] → raises (anonymize data) "ValueError") ∧
  (rows data ≠ [] →
   ∃ out,
     anonymize data = Ok out ∧
     out ≡ₚ (λ r, mkLong (model_index data (run_of r)) (Epoch r)
                         (new_values data (vals r))) <$> rows data ∧
     length out = length (rows data) ∧
     model_index data <$> level_runs data
       = Z.of_nat <$> seq 0 (length (level_runs data)) ∧
     (∀ r, r ∈ rows data →
        length (filter (λ o, ModelIndex o = model_index data (run_of r)) out)
        = length (filter (λ r', run_of r' = run_of r) (rows data))) ∧
     (mask_all data = true ∨
      Forall (λ r, Forall (λ c, ∀ z, c = Num z → Z.abs z ≤ 2 ^ 53) (vals r))
             (rows data) →
      out ≡ₚ (λ r, mkLong (model_index data (run_of r)) (Epoch r) (vals r))
               <$> rows data)).
Proof.
  intros Hnd Hwf Hcols (Hrem & _ & Hnan & Hlev & _)%clean_filters_Ok.
  destruct Hrem as [_ Hsub]. split.
  - intros Hrows. rewrite anonymize_no_rows by done. by eexists.
  - intros Hrows.
    destruct (anonymize_permutation data) as (out & Hout & Hperm); [| | done | |].
    { eapply sublist_NoDup; [exact Hnd | by apply fmap_sublist]. }
    { by eapply index_wf_sublist. }
    { intros r Hr. apply nan_check_value.
      - eapply nan_filter_clean, elem_of_sublist; [exact Hr | exact Hnan].
      - rewrite Forall_forall in Hcols. apply Hcols.
        by eapply elem_of_sublist. }
    exists out. split; [done |]. split; [done |].
    split; [by rewrite Hperm, length_fmap |].
    split; [apply model_index_dense |]. split.
    + intros r Hr. rewrite Hperm, filter_fmap, length_fmap. f_equal.
      apply filter_ext_in. intros r' Hr'. simpl. split; [| by intros ->].
      apply model_index_inj; apply elem_of_level_runs; eauto.
    + intros Hsame. rewrite Hperm.
      assert (Heq : ∀ r, r ∈ rows data → new_values data (vals r) = vals r).
      { intros r Hr. destruct Hsame as [Hfull | Hsmall].
        - by apply new_values_full.
        - apply new_values_small. rewrite Forall_forall in Hsmall. by apply Hsmall. }
      assert (Hmap : ((λ r, mkLong (model_index data (run_of r)) (Epoch r)
                              (new_values data (vals r))) <$> rows data)
                     = ((λ r, mkLong (model_index data (run_of r)) (Epoch r) (vals r))
                          <$> rows data)).
      { apply list_fmap_ext. intros i r Hi. f_equal. apply Heq.
        by eapply list_elem_of_lookup_2. }
      by rewrite Hmap.
Qed.

(** ** The surrogate lookup *)

Lemma setitem_fresh {V} (k : string) (v : V) (d : list (string * V)) :
  k ∉ d.*1 → setitem k v d = d ++ [(k, v)].
Proof.
  induction d as [|kv d IH]; [done |]. rewrite fmap_cons, not_elem_of_cons.
  intros [Hne Hk]. simpl. rewrite decide_False by done. by rewrite IH.
Qed.

Lemma setitem_keys {V} (k : string) (v : V) (d : list (string * V)) x :
  x ∈ (setitem k v d).*1 ↔ x = k ∨ x ∈ d.*1.
Proof.
  induction d as [|kv d IH]; cbn [setitem].
  - rewrite fmap_cons, !fmap_nil, elem_of_cons, elem_of_nil. tauto.
  - destruct (decide (kv.1 = k)) as [<- | Hne]; rewrite !fmap_cons, !elem_of_cons.
    + simpl. tauto.
    + rewrite IH. tauto.
Qed.

Lemma foldl_setitem_keys {V} (items acc : list (string * V)) x :
  x ∈ (foldl (λ d kv, setitem kv.1 kv.2 d) acc items).*1 ↔ x ∈ acc.*1 ∨ x ∈ items.*1.
Proof.
  revert acc. induction items as [|kv items IH]; intros acc; cbn [foldl].
  - rewrite fmap_nil, elem_of_nil. tauto.
  - rewrite IH, setitem_keys, fmap_cons, elem_of_cons. tauto.
Qed.

Lemma dict_of_keys {V} (items : list (string * V)) x :
  x ∈ (dict_of items).*1 ↔ x ∈ items.*1.
Proof.
  unfold dict_of. rewrite foldl_setitem_keys, fmap_nil, elem_of_nil. tauto.
Qed.

Lemma foldl_setitem_NoDup {V} (items acc : list (string * V)) :
  NoDup ((acc ++ items).*1) →
  foldl (λ d kv, setitem kv.1 kv.2 d) acc items = acc ++ items.
Proof.
  revert acc. induction items as [|kv items IH]; intros acc Hnd; simpl.
  - by rewrite app_nil_r.
  - assert (Hfresh : kv.1 ∉ acc.*1).
    { rewrite fmap_app, fmap_cons in Hnd.
      apply NoDup_app in Hnd as (_ & Hdisj & _).
      intros Hin. apply (Hdisj _ Hin). left. }
    rewrite setitem_fresh by done. destruct kv as [k v]. simpl.
    rewrite IH; rewrite <- app_assoc; done.
Qed.

(** The items of a dict (distinct keys) are the dict. *)
Lemma dict_of_NoDup {V} (items : list (string * V)) :
  NoDup (items.*1) → dict_of items = items.
Proof. intros Hnd. by apply (foldl_setitem_NoDup items []). Qed.

Lemma reshape_one_row {float} (n : nat) (flat : list float) :
  n ≠ 0%nat → length flat = n → Benchmark.reshape float n flat = Ok [flat].
Proof.
  intros Hn Hlen. unfold Benchmark.reshape.
  rewrite decide_False by done. rewrite Hlen.
  rewrite decide_True by (by apply Nat.Div0.mod_same).
  rewrite Nat.div_same by done. cbn [seq fmap list_fmap map].
  rewrite Nat.mul_0_l, drop_0. by rewrite take_ge by lia.
Qed.

Lemma comprehension_zip {float} (labels : list string) (j : nat)
    (acc : list (string * float)) (row : list float) (rest : list (list float)) :
  NoDup (acc.*1 ++ labels) → (j + length labels ≤ length row)%nat →
  Benchmark.comprehension float (row :: rest) (imap (λ i k, ((j + i)%nat, k)) labels) acc
  = Ok (acc ++ zip labels (drop j row)).
Proof.
  revert j acc. induction labels as [|k ks IH]; intros j acc Hnd Hlen.
  - simpl. by rewrite app_nil_r.
  - rewrite imap_cons. cbn [Benchmark.comprehension Benchmark.item lookup list_lookup].
    cbn [mbind result_bind fst snd]. rewrite Nat.add_0_r.
    destruct (row !! j) as [v|] eqn:Hv.
    2:{ apply lookup_ge_None in Hv. simpl in Hlen. lia. }
    unfold Benchmark.item. rewrite Hv. cbn [mbind result_bind].
    assert (Hfresh : k ∉ acc.*1).
    { apply NoDup_app in Hnd as (_ & Hdisj & _).
      intros Hin. apply (Hdisj _ Hin). left. }
    rewrite setitem_fresh by done.
    rewrite (imap_ext _ (λ i k0, ((S j + i)%nat, k0))).
    2:{ intros i x _. simpl. f_equal. lia. }
    rewrite IH.
    + rewrite <- app_assoc. f_equal. f_equal. by rewrite (drop_S _ _ _ Hv).
    + rewrite fmap_app, <- app_assoc. exact Hnd.
    + simpl in Hlen. lia.
Qed.

(** C9. Creating a [Benchmark] without a [model_path] ends with an
    exception before [XGBSurrogate.load] is called, whatever the file system
    holds.  The exception is not the assertion with the documented message:
    the default [True] is not [None], so execution reaches the test of the
    path, where a [bool] has no [exists] and an [AttributeError] is raised. *)
Theorem init_default_raises (float : Type) (path_exists path_is_dir : string → bool)
    (XGBSurrogate_load : string → result (Benchmark.XGBSurrogate float)) :
  let outcome :=
    Benchmark.__init__ float path_exists path_is_dir XGBSurrogate_load
                   Benchmark.default_model_path in
  raises outcome.1 "AttributeError" ∧
  outcome.2 = [] ∧
  ¬ raises outcome.1 "AssertionError" ∧
  outcome.1 ≠ Raise "AssertionError" Benchmark.documented_message ∧
  Benchmark.default_model_path ≠ PyNone.
Proof.
  simpl. split; [by eexists |]. split; [done |].
  split; [by intros [msg [=]] |]. done.
Qed.

(** C8 (as amended). For a configuration without a field named [epoch],
    the feature row is the configuration's fields followed by one more
    feature, [epoch], holding the given epoch number.  If moreover the
    model's label names are distinct, there is at least one, and the model
    answers a feature row with one value per label, the lookup returns
    exactly one entry per label, in label order, each holding the
    predicted value at the label's position. *)
Theorem benchmark_surrogate_lookup (float : Type)
    (surrogate : Benchmark.XGBSurrogate float)
    (config : list (string * pyobj)) (nepochs : pyobj) :
  "epoch" ∉ config.*1 →
  let features := Benchmark.features_of config nepochs in
  let outputs := Benchmark.predict float surrogate features in
  features = dict_of config ++ [("epoch", nepochs)] ∧
  (NoDup (config.*1) → features = config ++ [("epoch", nepochs)]) ∧
  (NoDup (Benchmark.label_headers float surrogate) →
   Benchmark.label_headers float surrogate ≠ [] →
   length outputs = length (Benchmark.label_headers float surrogate) →
   Benchmark._benchmark_surrogate float surrogate config nepochs
     = Ok (zip (Benchmark.label_headers float surrogate) outputs) ∧
   (zip (Benchmark.label_headers float surrogate) outputs).*1
     = Benchmark.label_headers float surrogate).
Proof.
  intros Hepoch features outputs.
  assert (Hfeat : features = dict_of config ++ [("epoch", nepochs)]).
  { unfold features, Benchmark.features_of. apply setitem_fresh.
    by rewrite dict_of_keys. }
  split; [done |]. split.
  - intros Hnd. by rewrite Hfeat, dict_of_NoDup.
  - intros Hnd Hne Hlen. split; [| by apply fst_zip; rewrite Hlen].
    unfold Benchmark._benchmark_surrogate.
    fold features. fold outputs.
    rewrite reshape_one_row; [| by destruct (Benchmark.label_headers _ _) | done].
    cbn [mbind result_bind].
    apply (comprehension_zip _ 0 [] outputs []); [done | lia].
Qed.

(** ** The sample tables at work *)

(** C1. The run of [Examples.short_run] has its last epoch at 0, below the
    horizon 2, and the caller did not ask to keep incomplete runs; still the
    step returns the table unchanged and the row reaches the table that
    [clean] builds. *)
Theorem completeness_filter_keeps_short_run :
  let data := truncate_epochs 2 Examples.short_run in
  completeness_filter false 2 data = data ∧
  rows data = [Examples.row 0 0 0 16 (Num 1)] ∧
  get_nepochs data !! (0, 0) = Some 0 ∧
  clean ["N"] Examples.short_run 2 false false one
    = Ok [mkLong 0 0 [Num 16; Num 1]].
Proof. by vm_compute. Qed.

Lemma truncate_epochs_monotone_witness :
  1 ≤ 2 ∧
  rows (truncate_epochs 1 Examples.metrics)
    `sublist_of` rows (truncate_epochs 2 Examples.metrics) ∧
  ∀ r, r ∈ rows (truncate_epochs 1 Examples.metrics) →
       r ∈ rows (truncate_epochs 2 Examples.metrics).
Proof.
  assert (H : 1 ≤ 2) by (intros H; discriminate H).
  split; [exact H |]. exact (truncate_epochs_monotone Examples.metrics 1 2 H).
Defined.

(** With the horizon 0 the pipeline runs to the end and returns the five
    rows of epoch 0; no [InvalidHorizon] error is raised. *)
Lemma clean_horizon_zero_returns :
  0 ≤ 0 ∧
  clean ["N"] Examples.metrics 0 false false one
    = Ok [mkLong 0 0 [Num 3; Num 1]; mkLong 1 0 [Num 5; Num 1];
          mkLong 2 0 [Num 3; Num 7]; mkLong 3 0 [Num 5; Num 7];
          mkLong 4 0 [Num 5; Num 7]] ∧
  ¬ raises (clean ["N"] Examples.metrics 0 false false one) "InvalidHorizon".
Proof.
  split; [done |]. split; [by vm_compute |].
  intros [msg Hraise]. vm_compute in Hraise. discriminate Hraise.
Qed.

Lemma clean_accepts_nonpositive_horizon_witness :
  0 ≤ 0 ∧
  ¬ raises (clean ["N"] Examples.metrics 0 false false one) "InvalidHorizon" ∧
  (∀ out o, clean ["N"] Examples.metrics 0 false false one = Ok out →
            o ∈ out → long_Epoch o ≤ 0).
Proof.
  assert (H : 0 ≤ 0) by (intros H; discriminate H).
  split; [exact H |].
  pose proof (clean_accepts_nonpositive_horizon ["N"] Examples.metrics 0
                false false one H) as (Hno & _ & Hep & _).
  split; [exact Hno | exact Hep].
Defined.

(** With the fraction 2 the pipeline returns its table of seven rows; no
    [InvalidFraction] error is raised. *)
Lemma clean_fraction_above_one_returns :
  float_lt one Examples.two = true ∧
  (∃ out, clean ["N"] Examples.metrics 2 false false Examples.two = Ok out ∧
          length out = 7%nat) ∧
  ¬ raises (clean ["N"] Examples.metrics 2 false false Examples.two)
           "InvalidFraction".
Proof.
  split; [done |]. split; [eexists; split; by vm_compute |].
  intros [msg Hraise]. vm_compute in Hraise. discriminate Hraise.
Qed.

(** At the fraction 1 the step of [clean] leaves the table alone: of the
    table that reaches it, the group N = 5 keeps its three runs although the
    smallest group has two and the code's own target would be 2.  At the
    fraction 0.25 the target is 0, and instead of a table in which every
    group holds no run there is a [ValueError].  And the target is the
    floor of a rounded product: three times the float nearest to 1/3 is
    below 1, yet the float product is 1.0 and its floor is 1. *)
Lemma subsample_stage_full_fraction_keeps_groups :
  let data := nan_filter false
                (completeness_filter false 2 (truncate_epochs 2 Examples.metrics)) in
  ∃ fids out fids',
    fidelity_frame ["N"] data = Ok fids ∧
    minimum (counts fids) = Some 2 ∧
    min_sample_size ["N"] fids one = Ok 2 ∧
    subsample_stage ["N"] one data = Ok out ∧
    clean_filters ["N"] Examples.metrics 2 false false one = Ok out ∧
    fidelity_frame ["N"] out = Ok fids' ∧
    [Num 5] ∈ group_keys fids ∧
    group_size fids' [Num 5] = 3 ∧
    min_sample_size ["N"] fids Examples.quarter = Ok 0 ∧
    raises (subsample_stage ["N"] Examples.quarter data) "ValueError" ∧
    Examples.third = S754_finite false 6004799503160661 (-54) ∧
    3 * 6004799503160661 < 2 ^ 54 ∧
    math_floor (float_mul (float_of_int 3) Examples.third) = Ok 1.
Proof.
  eexists _, _, _. split; [by vm_compute |]. split; [by vm_compute |].
  split; [by vm_compute |]. split; [by vm_compute |].
  split; [by vm_compute |]. split; [by vm_compute |].
  split; [apply (bool_decide_unpack _); by vm_compute |].
  split; [by vm_compute |]. split; [by vm_compute |].
  split; [eexists; by vm_compute |].
  split; [by vm_compute |]. split; by vm_compute.
Qed.

Lemma subsample_equal_group_sizes_witness :
  ∃ fids out fids',
    fidelity_frame ["N"] Examples.metrics = Ok fids ∧
    min_sample_size ["N"] fids Examples.half = Ok 1 ∧
    subsample_df ["N"] Examples.metrics Examples.half = Ok out ∧
    fidelity_frame ["N"] out = Ok fids' ∧
    (∀ k, k ∈ group_keys fids → group_size fids' k = 1).
Proof.
  set (fids := [((1, 2), [Num 5]); ((1, 1), [Num 3]); ((2, 1), [Num 3]);
                ((2, 2), [Num 5]); ((2, 3), [Num 5])] : list (run_id * list cell)).
  assert (H1 : ["N"] ≠ @nil string) by discriminate.
  assert (H2 : fidelity_frame ["N"] Examples.metrics = Ok fids) by reflexivity.
  assert (H3 : min_sample_size ["N"] fids Examples.half = Ok 1) by reflexivity.
  assert (H4 : 0 < 1) by reflexivity.
  assert (H5 : minimum (counts fids) = Some 2) by reflexivity.
  assert (H6 : 1 ≤ 2) by (intros H; discriminate H).
  destruct (subsample_equal_group_sizes ["N"] Examples.metrics Examples.half fids 1
              H1 H2 H3) as (Hpos & _).
  destruct (Hpos H4) as (out & fids' & Hout & Hf & _ & Hk & _).
  exists fids, out, fids'. repeat split; try assumption.
  exact (Hk 2 H5 H6).
Defined.

(** The horizon -1 leaves no row of [Examples.metrics], and the table
    without rows that reaches the anonymization is not returned re-keyed:
    there is a [ValueError].  In [Examples.ragged] the wide table has a
    cell to fill, and the N of 54 bits does not come back as it was. *)
Lemma anonymize_fails_without_rows :
  NoDup (key_of <$> rows Examples.metrics) ∧
  clean_filters ["N"] Examples.metrics (-1) false false one = Ok Examples.no_rows ∧
  anonymize Examples.no_rows
    = Raise "ValueError" "Must pass non-zero number of levels/codes" ∧
  clean_filters ["N"] Examples.ragged 1 false false one = Ok Examples.ragged ∧
  anonymize Examples.ragged
    = Ok [mkLong 0 0 [Num 9007199254740992; Num 1];
          mkLong 0 1 [Num 9007199254740992; Num 1];
          mkLong 1 0 [Num 3; Num 1]].
Proof.
  split; [apply (bool_decide_unpack _); by vm_compute |].
  split; [by vm_compute |]. split; [by vm_compute |].
  split; by vm_compute.
Qed.

Lemma anonymize_preserves_rows_witness :
  ∃ data out,
    clean_filters ["N"] Examples.metrics 2 false false one = Ok data ∧
    anonymize data = Ok out ∧
    length out = length (rows data).
Proof.
  assert (H1 : NoDup (key_of <$> rows Examples.metrics))
    by (apply (bool_decide_unpack _); exact I).
  assert (H0 : index_wf Examples.metrics)
    by (unfold index_wf; apply (bool_decide_unpack _); exact I).
  assert (H2 : Forall (λ r, vals r ≠ []) (rows Examples.metrics))
    by (apply (bool_decide_unpack _); exact I).
  set (data := nan_filter false
                 (completeness_filter false 2 (truncate_epochs 2 Examples.metrics))).
  assert (H3 : clean_filters ["N"] Examples.metrics 2 false false one = Ok data)
    by reflexivity.
  assert (H4 : rows data ≠ []) by discriminate.
  destruct (anonymize_preserves_rows ["N"] Examples.metrics 2 false false one data
              H1 H0 H2 H3) as (_ & Hsome).
  destruct (Hsome H4) as (out & Hout & _ & Hlen & _).
  exists data, out. repeat split; assumption.
Defined.

(** A configuration that already has a field named [epoch]: the field is
    overwritten, so the feature row has as many fields as the
    configuration, and the configuration's own value is gone. *)
Lemma features_of_overwrites_epoch :
  let config := [("N", PyInt 3); ("epoch", PyInt 5)] in
  let features := Benchmark.features_of config (PyInt 200) in
  features = [("N", PyInt 3); ("epoch", PyInt 200)] ∧
  features ≠ config ++ [("epoch", PyInt 200)] ∧
  length features = length config.
Proof. by vm_compute. Qed.

Lemma benchmark_surrogate_lookup_witness :
  ("epoch" ∉ Examples.config.*1) ∧
  Benchmark.features_of Examples.config (PyInt 200)
    = [("N", PyInt 3); ("epoch", PyInt 200)] ∧
  Benchmark._benchmark_surrogate Z Examples.constant_model Examples.config (PyInt 200)
    = Ok [("valid-acc", 91); ("runtime", 12)].
Proof.
  assert (H : "epoch" ∉ Examples.config.*1) by (apply (bool_decide_unpack _); exact I).
  split; [exact H |].
  pose proof (benchmark_surrogate_lookup Z Examples.constant_model
                Examples.config (PyInt 200) H) as (Hf & _ & Hres).
  split; [exact Hf |].
  refine (proj1 (Hres _ _ _)); [| discriminate | reflexivity].
  apply (bool_decide_unpack _). exact I.
Defined.

(** * Further properties of the code *)

(** ** Truncation and the completeness step *)

(** X1. Truncating twice is truncating once at the smaller horizon; in
    particular the step is idempotent and two truncations commute. *)
Theorem truncate_epochs_compose (e1 e2 : Z) (data : DataFrame) :
  truncate_epochs e1 (truncate_epochs e2 data) = truncate_epochs (Z.min e1 e2) data.
Proof.
  unfold truncate_epochs, loc; simpl. f_equal.
  rewrite list_filter_filter. apply list_filter_iff. intros r.
  rewrite !Is_true_true, !Z.leb_le. lia.
Qed.

(** X2. The flag [keep_incomplete_runs] has no effect on what [clean]
    builds: the completeness step comes after the truncation, where the
    largest Epoch of every run is at most [epochs], so its test
    [nepochs <= epochs] holds on every row. *)
Theorem clean_ignores_keep_incomplete_runs (fp : list string) (data : DataFrame)
    (epochs : Z) (keep keep' keep_nan_configs : bool) (frac : binary64) :
  clean_filters fp data epochs keep keep_nan_configs frac
    = clean_filters fp data epochs keep' keep_nan_configs frac ∧
  clean fp data epochs keep keep_nan_configs frac
    = clean fp data epochs keep' keep_nan_configs frac.
Proof.
  assert (H : clean_filters fp data epochs keep keep_nan_configs frac
              = clean_filters fp data epochs keep' keep_nan_configs frac).
  { unfold clean_filters. by rewrite !completeness_filter_truncated. }
  split; [done |]. unfold clean. by rewrite H.
Qed.

(** ** NaN values *)

Lemma nan_check_cells (r : Row) :
  nan_check r = false ↔ ∀ c, c ∈ vals r → c ≠ NaN.
Proof.
  unfold nan_check. induction (vals r) as [|c l IH]; simpl.
  - split; [intros _ c Hc; by apply elem_of_nil in Hc | done].
  - rewrite orb_false_iff, IH. split.
    + intros [Hc Hl] c' [-> | Hc']%elem_of_cons; [by destruct c | by apply Hl].
    + intros Hall. split.
      * destruct c; [| done..]. exfalso. by apply (Hall NaN); [left |].
      * intros c' Hc'. apply Hall. by right.
Qed.

(** X3. Whatever the mode, no cell of the table that the NaN step returns
    is NaN. *)
Theorem nan_filter_leaves_no_nan (keep_nan_configs : bool) (data : DataFrame) :
  Forall (λ r, Forall (λ c, c ≠ NaN) (vals r))
         (rows (nan_filter keep_nan_configs data)).
Proof.
  apply Forall_forall. intros r Hr. apply Forall_forall.
  apply nan_check_cells. by eapply nan_filter_clean.
Qed.

Lemma nan_filter_id (b : bool) (data : DataFrame) :
  (∀ r, r ∈ rows data → nan_check r = false) → nan_filter b data = data.
Proof.
  intros Hclean.
  assert (Hind : nan_index data = []).
  { unfold nan_index, loc. cbn [rows]. rewrite filter_none; [done |].
    intros r Hr. rewrite Is_true_true, (Hclean r Hr). done. }
  unfold nan_filter. rewrite Hind. destruct data as [cols rs]. destruct b.
  - change (drop_duplicates (map fst (@nil (run_id * Z)))) with (@nil run_id).
    unfold drop_runs, loc. cbn [rows columns]. f_equal.
    apply filter_all. intros r _.
    apply Is_true_true, negb_true_iff, bool_decide_eq_false, not_elem_of_nil.
  - unfold drop_labels, loc. cbn [rows columns]. f_equal.
    apply filter_all. intros r _.
    apply Is_true_true, negb_true_iff, bool_decide_eq_false, not_elem_of_nil.
Qed.

(** X4. The NaN step is idempotent, and once it has run in either mode a
    second pass in any mode changes nothing. *)
Theorem nan_filter_twice (b b' : bool) (data : DataFrame) :
  nan_filter b' (nan_filter b data) = nan_filter b data.
Proof. apply nan_filter_id. intros r. apply nan_filter_clean. Qed.

(** X5. With [keep_nan_configs] set the step keeps or drops whole runs: a
    row is kept exactly when no row of its run has a NaN, so two rows of
    the same run are kept together or dropped together. *)
Theorem nan_filter_lenient_whole_runs (data : DataFrame) :
  (∀ r, r ∈ rows (nan_filter true data) ↔
        r ∈ rows data ∧
        ∀ r', r' ∈ rows data → run_of r' = run_of r → nan_check r' = false) ∧
  (∀ r1 r2, r1 ∈ rows data → r2 ∈ rows data → run_of r1 = run_of r2 →
            r1 ∈ rows (nan_filter true data) → r2 ∈ rows (nan_filter true data)).
Proof.
  split; [apply elem_of_nan_filter_lenient |].
  intros r1 r2 H1 H2 Hrun [_ Hno]%elem_of_nan_filter_lenient.
  apply elem_of_nan_filter_lenient. split; [done |].
  intros r' Hr' Hrun'. apply Hno; [done | congruence].
Qed.

(** With distinct row labels the default mode keeps the rows without a NaN,
    in their order. *)
Lemma nan_filter_strict_rows (data : DataFrame) :
  NoDup (key_of <$> rows data) →
  rows (nan_filter false data) = filter (λ r, negb (nan_check r)) (rows data).
Proof.
  intros Hnd. simpl. apply filter_ext_in. intros r Hr.
  rewrite !Is_true_true, !negb_true_iff, bool_decide_eq_false.
  unfold nan_index. rewrite list_elem_of_fmap. split.
  - intros Hno. destruct (nan_check r) eqn:Hnan; [| done].
    exfalso. apply Hno. exists r. split; [done |]. by apply elem_of_rows_loc.
  - intros Hnan (r' & Hkey & [Hnan' Hr']%elem_of_rows_loc).
    rewrite (key_of_inj _ _ _ Hnd Hr Hr' Hkey) in Hnan. congruence.
Qed.

(** X6. When the row labels are distinct, the default mode drops exactly the
    rows that contain a NaN: the rows kept are the rows without one, in
    their original order. *)
Theorem nan_filter_strict_exact (data : DataFrame) :
  NoDup (key_of <$> rows data) →
  rows (nan_filter false data) = filter (λ r, negb (nan_check r)) (rows data).
Proof. apply nan_filter_strict_rows. Qed.

Lemma nan_filter_strict_exact_witness :
  NoDup (key_of <$> rows Examples.metrics) ∧
  rows (nan_filter false Examples.metrics)
    = filter (λ r, negb (nan_check r)) (rows Examples.metrics).
Proof.
  assert (H : NoDup (key_of <$> rows Examples.metrics))
    by (apply (bool_decide_unpack _); exact I).
  split; [exact H | exact (nan_filter_strict_exact Examples.metrics H)].
Defined.

(** ** Sub-sampling *)

(** X7. A fidelity parameter that is not a column of the configuration
    makes [subsample_df] end with a [KeyError], whatever the table holds
    and whatever the fraction. *)
Theorem subsample_df_missing_column (fp : list string) (df : DataFrame)
    (frac : binary64) (p : string) :
  p ∈ fp → ("model_config", p) ∉ columns df →
  subsample_df fp df frac = Raise "KeyError" "not in index".
Proof.
  intros Hp Hcol. unfold subsample_df, fidelity_frame, getitem.
  destruct (mapM _ fp) as [pos|] eqn:Hpos; [| done].
  exfalso.
  assert (Hall : Forall (is_Some ∘ (λ n, index_of n (cfg_columns (get_configs df)))) fp)
    by (apply mapM_is_Some_1; by rewrite Hpos).
  rewrite Forall_forall in Hall. destruct (Hall p Hp) as [i Hi].
  apply Hcol, elem_of_cfg_columns. eapply list_elem_of_lookup_2.
  by apply index_of_lookup.
Qed.

Lemma subsample_df_missing_column_witness :
  ("M" ∈ ["N"; "M"]) ∧ (("model_config", "M") ∉ columns Examples.metrics) ∧
  subsample_df ["N"; "M"] Examples.metrics Examples.half = Raise "KeyError" "not in index".
Proof.
  assert (H1 : "M" ∈ ["N"; "M"]) by (apply (bool_decide_unpack _); exact I).
  assert (H2 : ("model_config", "M") ∉ columns Examples.metrics)
    by (apply (bool_decide_unpack _); exact I).
  split; [exact H1 |]. split; [exact H2 |].
  exact (subsample_df_missing_column _ Examples.metrics Examples.half "M" H1 H2).
Defined.

(** Line 55 on a table without rows. *)
Lemma subsample_df_empty (fp : list string) (df : DataFrame) (frac : binary64) :
  "check" ∉ fp →
  Forall (λ p, ("model_config", p) ∈ columns df) fp →
  rows df = [] →
  subsample_df fp df frac
    = Raise "ValueError" "cannot set a frame with no defined index and a scalar".
Proof.
  intros Hcheck Hcols Hrows.
  destruct (fidelity_frame_present fp df Hcols) as [fids Hfids].
  destruct (fidelity_frame_Ok _ _ _ Hfids) as (pos & _ & ->).
  unfold subsample_df. rewrite Hfids, Hrows. cbn [mbind result_bind].
  by rewrite bool_decide_eq_false_2.
Qed.

(** X8. A table without rows cannot be sub-sampled: with the fidelity
    columns in place, [subsample_df] ends with the [ValueError] of the
    assignment of the placeholder column (line 55), which pandas refuses on
    a frame without rows; the fraction is not even looked at. *)
Theorem subsample_df_no_rows (fp : list string) (df : DataFrame) (frac : binary64) :
  "check" ∉ fp →
  Forall (λ p, ("model_config", p) ∈ columns df) fp →
  rows df = [] →
  subsample_df fp df frac
    = Raise "ValueError" "cannot set a frame with no defined index and a scalar".
Proof. apply subsample_df_empty. Qed.

Lemma subsample_df_no_rows_witness :
  subsample_df ["N"] Examples.no_rows Examples.half
    = Raise "ValueError" "cannot set a frame with no defined index and a scalar".
Proof.
  apply (subsample_df_no_rows ["N"] Examples.no_rows Examples.half).
  - apply (bool_decide_unpack _). exact I.
  - apply (bool_decide_unpack _). exact I.
  - reflexivity.
Defined.

(** [subsample_df] never returns a table without rows. *)
Lemma subsample_df_returns_rows fp df frac out :
  subsample_df fp df frac = Ok out → rows out ≠ [].
Proof.
  intros (fids & n & Hfids & _ & Hhead & ->)%subsample_df_Ok Hrows.
  destruct (fidelity_frame_Ok _ _ _ Hfids) as (pos & _ & Hmap).
  destruct (head n fids) as [|c cs] eqn:Hc; [done |].
  assert (Hc' : c ∈ fids).
  { eapply elem_of_sublist; [| apply (head_from_sublist n fids [] fids)].
    fold (head n fids). rewrite Hc. left. }
  rewrite Hmap in Hc'. apply list_elem_of_fmap in Hc' as (r & Hcr & Hr).
  apply elem_of_first_rows in Hr.
  assert (Hin : r ∈ rows (loc (λ r0, bool_decide (run_of r0 ∈ (c :: cs).*1)) df)).
  { apply elem_of_rows_loc. split; [| done].
    apply bool_decide_eq_true. rewrite Hcr, fmap_cons. left. }
  rewrite Hrows in Hin. by apply elem_of_nil in Hin.
Qed.

(** X9. With a horizon below every Epoch of the table, [clean] never
    returns an empty dataset: it fails.  Without sub-sampling the
    truncation leaves no row and [stack] fails on the wide table; with
    sub-sampling asked for ([subsample < 1.0]) and the fidelity columns in
    place, [subsample_df] fails before, at the assignment of its
    placeholder column. *)
Theorem clean_horizon_below_all_epochs (fp : list string) (data : DataFrame)
    (epochs : Z) (keep_incomplete_runs keep_nan_configs : bool) (frac : binary64) :
  Forall (λ r, epochs < Epoch r) (rows data) →
  (∃ cls msg,
     clean fp data epochs keep_incomplete_runs keep_nan_configs frac
       = Raise cls msg) ∧
  (float_lt frac one = false →
   clean fp data epochs keep_incomplete_runs keep_nan_configs frac
     = Raise "ValueError" "Must pass non-zero number of levels/codes") ∧
  (float_lt frac one = true → "check" ∉ fp →
   Forall (λ p, ("model_config", p) ∈ columns data) fp →
   clean fp data epochs keep_incomplete_runs keep_nan_configs frac
     = Raise "ValueError" "cannot set a frame with no defined index and a scalar").
Proof.
  intros Hep.
  set (d := nan_filter keep_nan_configs
              (completeness_filter keep_incomplete_runs epochs
                 (truncate_epochs epochs data))).
  assert (Hd : only_removes_rows (truncate_epochs epochs data) d).
  { eapply only_removes_rows_trans;
      [apply completeness_filter_only_removes_rows | apply nan_filter_only_removes_rows]. }
  assert (Hempty : rows (truncate_epochs epochs data) = []).
  { unfold truncate_epochs, loc. cbn [rows]. apply filter_none.
    intros r Hr. rewrite Is_true_true, Z.leb_le.
    rewrite Forall_forall in Hep. specialize (Hep r Hr). lia. }
  destruct Hd as [Hc Hs]. rewrite Hempty in Hs. apply sublist_nil_r in Hs.
  assert (Hskip : float_lt frac one = false →
            clean fp data epochs keep_incomplete_runs keep_nan_configs frac
            = Raise "ValueError" "Must pass non-zero number of levels/codes").
  { intros Hfrac. unfold clean, clean_filters, subsample_stage. rewrite Hfrac.
    cbn [mbind result_bind]. by apply anonymize_no_rows. }
  split; [| split; [exact Hskip |]].
  - destruct (float_lt frac one) eqn:Hfrac; [| rewrite Hskip by done; by eauto].
    unfold clean, clean_filters, subsample_stage. rewrite Hfrac. fold d.
    destruct (subsample_df fp d frac) as [out | cls msg] eqn:Hout;
      cbn [mbind result_bind]; [| by eauto].
    exfalso. apply (subsample_df_returns_rows _ _ _ _ Hout).
    apply subsample_df_only_removes_rows in Hout as [_ Hsub].
    rewrite Hs in Hsub. by apply sublist_nil_r in Hsub.
  - intros Hfrac Hcheck Hcols.
    unfold clean, clean_filters, subsample_stage. rewrite Hfrac. fold d.
    rewrite subsample_df_empty; [done.. | | done]. by rewrite Hc.
Qed.

Lemma clean_horizon_below_all_epochs_witness :
  clean ["N"] Examples.metrics (-1) false false one
    = Raise "ValueError" "Must pass non-zero number of levels/codes" ∧
  clean ["N"] Examples.metrics (-1) false false Examples.half
    = Raise "ValueError" "cannot set a frame with no defined index and a scalar".
Proof.
  assert (H : Forall (λ r, -1 < Epoch r) (rows Examples.metrics))
    by (apply (bool_decide_unpack _); exact I).
  split.
  - refine (proj1 (proj2 (clean_horizon_below_all_epochs ["N"] Examples.metrics
                            (-1) false false one H)) _).
    reflexivity.
  - refine (proj2 (proj2 (clean_horizon_below_all_epochs ["N"] Examples.metrics
                            (-1) false false Examples.half H)) _ _ _).
    + reflexivity.
    + apply (bool_decide_unpack _). exact I.
    + apply (bool_decide_unpack _). exact I.
Defined.

(** X10. [subsample_df] selects runs, not rows: the table it returns holds
    every row of the runs it selected and no other row, so two rows of one
    run are kept together or dropped together. *)
Theorem subsample_df_whole_runs (fp : list string) (df : DataFrame) (frac : binary64) :
  match subsample_df fp df frac with
  | Ok out =>
      columns out = columns df ∧
      (∃ runs : list run_id,
          rows out = filter (λ r, bool_decide (run_of r ∈ runs)) (rows df)) ∧
      (∀ r1 r2, r1 ∈ rows df → r2 ∈ rows df → run_of r1 = run_of r2 →
                r1 ∈ rows out → r2 ∈ rows out)
  | Raise _ _ => True
  end.
Proof.
  destruct (subsample_df fp df frac) as [out|] eqn:Hout; [| done].
  apply subsample_df_Ok in Hout as (fids & n & _ & _ & _ & ->).
  split; [done |]. split; [by eexists |].
  intros r1 r2 _ H2 Hrun [Hsel _]%elem_of_rows_loc.
  apply elem_of_rows_loc. split; [| done]. by rewrite <- Hrun.
Qed.

(** Of one group, [head] lets through the first rows, as many as asked for. *)
Lemma head_from_take (n : nat) all seen l k :
  na_key k = false →
  filter (λ f, f.2 = k) (head_from (Z.of_nat n) all seen l)
  = take (n - length (filter (λ k', k' = k) seen)) (filter (λ f, f.2 = k) l).
Proof.
  intros Hk. revert seen. induction l as [|f l IH]; intros seen.
  - cbn [head_from]. rewrite !filter_nil. by destruct (_ - _)%nat.
  - cbn [head_from]. destruct (na_key f.2) eqn:Hna.
    + rewrite (filter_cons_False _ f l) by congruence. apply IH.
    + replace (0 <=? Z.of_nat n) with true by (symmetry; apply Z.leb_le; lia).
      destruct (decide (f.2 = k)) as [Heq | Hne].
      * rewrite (filter_cons_True _ f l) by done.
        destruct (_ <? _) eqn:Hstop.
        -- rewrite filter_cons_True by done. rewrite IH.
           rewrite filter_cons_True by done. cbn [length].
           apply Z.ltb_lt in Hstop. rewrite Heq in Hstop.
           replace (n - length (filter (λ k', k' = k) seen))%nat
             with (S (n - S (length (filter (λ k', k' = k) seen)))) by lia.
           done.
        -- rewrite IH. rewrite filter_cons_True by done. cbn [length].
           apply Z.ltb_ge in Hstop. rewrite Heq in Hstop.
           replace (n - length (filter (λ k', k' = k) seen))%nat with 0%nat by lia.
           replace (n - S (length (filter (λ k', k' = k) seen)))%nat with 0%nat by lia.
           done.
      * rewrite (filter_cons_False _ f l) by done.
        destruct (_ <? _).
        -- rewrite filter_cons_False by done. rewrite IH.
           by rewrite filter_cons_False.
        -- rewrite IH. by rewrite filter_cons_False.
Qed.

Lemma head_from_no_na n all seen l :
  Forall (λ f, na_key f.2 = false) (head_from n all seen l).
Proof.
  revert seen. induction l as [|f l IH]; intros seen; cbn [head_from];
    [constructor |].
  destruct (na_key f.2) eqn:Hna; [apply IH |].
  destruct (_ <? _); [constructor; [done | apply IH] | apply IH].
Qed.

(** X11. On a table whose fidelity columns exist, with [n] the number of
    runs per group that the code computes from the fraction (whatever the
    fraction, also above 1): if [n] is positive, the table [subsample_df]
    returns holds of every group its first [n] runs in the order of the
    table, or the whole group if it has fewer; runs with a missing
    fidelity value are never selected. *)
Theorem subsample_df_first_runs (fp : list string) (df : DataFrame)
    (frac : binary64) (fids : list (run_id * list cell)) (n : Z) :
  fp ≠ [] →
  fidelity_frame fp df = Ok fids →
  min_sample_size fp fids frac = Ok n →
  0 < n →
  ∃ out fids',
    subsample_df fp df frac = Ok out ∧
    fidelity_frame fp out = Ok fids' ∧
    (∀ k, na_key k = false →
          filter (λ f, f.2 = k) fids' = take (Z.to_nat n) (filter (λ f, f.2 = k) fids)) ∧
    (∀ k, na_key k = false → group_size fids' k = Z.min n (group_size fids k)) ∧
    Forall (λ f, na_key f.2 = false) fids'.
Proof.
  intros Hfp Hfids Hn Hpos.
  destruct (subsample_df_selects fp df frac fids n Hfp Hfids Hn Hpos)
    as [Hout Hfids'].
  assert (Htake : ∀ k, na_key k = false →
            filter (λ f, f.2 = k) (head n fids)
            = take (Z.to_nat n) (filter (λ f, f.2 = k) fids)).
  { intros k Hk. unfold head. rewrite <- (Z2Nat.id n) at 1 by lia.
    rewrite head_from_take by done. simpl. by rewrite Nat.sub_0_r. }
  eexists _, _. split; [exact Hout |]. split; [exact Hfids' |].
  split; [exact Htake |]. split; [| apply head_from_no_na].
  intros k Hk. unfold group_size. rewrite (Htake k Hk), length_take. lia.
Qed.

Lemma subsample_df_first_runs_witness :
  ∃ fids out fids',
    fidelity_frame ["N"] Examples.metrics = Ok fids ∧
    min_sample_size ["N"] fids Examples.three_halves = Ok 3 ∧
    subsample_df ["N"] Examples.metrics Examples.three_halves = Ok out ∧
    fidelity_frame ["N"] out = Ok fids' ∧
    (∀ k, na_key k = false → group_size fids' k = Z.min 3 (group_size fids k)).
Proof.
  set (fids := [((1, 2), [Num 5]); ((1, 1), [Num 3]); ((2, 1), [Num 3]);
                ((2, 2), [Num 5]); ((2, 3), [Num 5])] : list (run_id * list cell)).
  assert (H1 : ["N"] ≠ @nil string) by discriminate.
  assert (H2 : fidelity_frame ["N"] Examples.metrics = Ok fids) by reflexivity.
  assert (H3 : min_sample_size ["N"] fids Examples.three_halves = Ok 3) by reflexivity.
  assert (H4 : 0 < 3) by reflexivity.
  destruct (subsample_df_first_runs ["N"] Examples.metrics Examples.three_halves
              fids 3 H1 H2 H3 H4) as (out & fids' & Hout & Hf & _ & Hk & _).
  exists fids, out, fids'. repeat split; assumption.
Defined.

(** ** Anonymizing the index *)

(** X12. The round trip through the wide table either fails or loses
    exactly the rows without any value.  On a table with a row, distinct
    row labels and a well-formed index it returns, up to the order of
    rows, the rows that have a cell other than NaN, each with its run label
    replaced by the ModelIndex of the run and its cells as the wide table
    holds them.  When a label is repeated it ends with the [ValueError] of
    [unstack], and on a table without rows with the one of [stack]. *)
Theorem anonymize_round_trip (df : DataFrame) :
  (NoDup (key_of <$> rows df) → index_wf df → rows df ≠ [] →
   ∃ out,
     anonymize df = Ok out ∧
     out ≡ₚ (λ r, mkLong (model_index df (run_of r)) (Epoch r)
                         (new_values df (vals r)))
              <$> filter (λ r, negb (forallb isna (vals r))) (rows df)) ∧
  (¬ NoDup (key_of <$> rows df) →
   anonymize df
     = Raise "ValueError" "Index contains duplicate entries, cannot reshape") ∧
  (rows df = [] →
   anonymize df = Raise "ValueError" "Must pass non-zero number of levels/codes").
Proof.
  split; [| split; [apply anonymize_duplicates | apply anonymize_no_rows]].
  intros Hnd Hwf Hrows. destruct (anonymize_returns df Hnd Hrows) as (out & Hout).
  exists out. split; [done |].
  assert (Hrun : ∀ r, r ∈ rows df → run_of r ∈ level_runs df).
  { intros r Hr. apply elem_of_level_runs. by exists r. }
  apply NoDup_Permutation; [by eapply NoDup_anonymize | |].
  - apply NoDup_fmap_2_strong.
    + intros r1 r2 [_ H1]%list_elem_of_filter [_ H2]%list_elem_of_filter
        [= Hidx Hep _].
      apply (key_of_inj _ _ _ Hnd H1 H2). unfold key_of. f_equal; [| done].
      apply (model_index_inj df); auto.
    + apply NoDup_filter. by eapply NoDup_fmap_1.
  - intros o. rewrite (elem_of_anonymize _ _ _ Hout), list_elem_of_fmap. split.
    + intros (i & run & e & Hi & He & Hna & ->).
      destruct (block_of_value _ _ _ Hna) as (r & Hr & Hkey & Hvals).
      exists r. injection Hkey as Hrun' He'. split.
      * rewrite Hvals, He', Hrun'. f_equal. symmetry.
        by apply model_index_lookup.
      * apply list_elem_of_filter. split; [| done].
        apply Is_true_true, negb_true_iff.
        by rewrite <- new_values_forallb with (df := df), Hvals.
    + intros (r & -> & [Hval Hr]%list_elem_of_filter).
      apply Is_true_true, negb_true_iff in Hval.
      destruct (list_elem_of_lookup_1 _ _ (Hrun r Hr)) as [i Hi].
      exists i, (run_of r), (Epoch r).
      rewrite (block_of_row _ _ Hnd Hr), (model_index_lookup _ _ _ Hi).
      split; [done |]. split; [by apply elem_of_level_epochs_2 |].
      split; [| done]. by rewrite new_values_forallb.
Qed.

(** ** The pipeline *)

(** X14. Every row of the table that [clean] builds stems from a row of the
    raw table that passed the four filtering steps, with the same Epoch and
    with the cells of that row as the wide table holds them (the very same
    cells when no integer of the row has more than 53 bits); its Epoch is
    at most the horizon, none of its cells is NaN, and its ModelIndex is
    the place of its run in the line of the runs that are left, a number
    from 0 to the number of these runs less one. *)
Theorem clean_output_rows (fp : list string) (raw : DataFrame) (epochs : Z)
    (keep_incomplete_runs keep_nan_configs : bool) (frac : binary64)
    (out : list LongRow) :
  clean fp raw epochs keep_incomplete_runs keep_nan_configs frac = Ok out →
  ∃ data,
    clean_filters fp raw epochs keep_incomplete_runs keep_nan_configs frac = Ok data ∧
    Forall (λ o,
              long_Epoch o ≤ epochs ∧
              Forall (λ c, c ≠ NaN) (long_vals o) ∧
              0 ≤ ModelIndex o < Z.of_nat (length (level_runs data)) ∧
              ∃ r, r ∈ rows raw ∧ r ∈ rows data ∧ Epoch r = long_Epoch o ∧
                   new_values data (vals r) = long_vals o ∧
                   (Forall (λ c, ∀ z, c = Num z → Z.abs z ≤ 2 ^ 53) (vals r) →
                    vals r = long_vals o) ∧
                   model_index data (run_of r) = ModelIndex o)
           out.
Proof.
  intros (data & Hdata & Hout)%clean_Ok. exists data. split; [done |].
  destruct (clean_filters_Ok _ _ _ _ _ _ _ Hdata) as ([_ Hraw] & Htrunc & Hnan & _).
  apply Forall_forall. intros o Ho.
  apply (elem_of_anonymize _ _ _ Hout) in Ho as (i & run & e & Hi & He & Hna & ->).
  destruct (block_of_value _ _ _ Hna) as (r & Hr & Hkey & Hvals).
  injection Hkey as Hrun He'. cbn [long_Epoch long_vals ModelIndex].
  assert (Hclean : nan_check r = false).
  { eapply nan_filter_clean, elem_of_sublist; [exact Hr | exact Hnan]. }
  split; [| split; [| split]].
  - subst e. by apply (elem_of_sublist _ _ _ Hr), elem_of_truncate_epochs in Htrunc as [_ ?].
  - rewrite <- Hvals. apply Forall_forall.
    apply (nan_check_cells (mkRow 0 0 0 (new_values data (vals r)))).
    unfold nan_check. cbn [vals]. by rewrite new_values_existsb.
  - apply lookup_lt_Some in Hi. lia.
  - exists r. split; [by eapply elem_of_sublist |]. split; [done |].
    split; [done |]. split; [done |]. split.
    + intros Hsmall. by rewrite <- Hvals, new_values_small.
    + rewrite Hrun. by apply model_index_lookup.
Qed.

Lemma clean_output_rows_witness :
  ∃ out data,
    clean ["N"] Examples.metrics 1 false true Examples.half = Ok out ∧
    clean_filters ["N"] Examples.metrics 1 false true Examples.half = Ok data ∧
    Forall (λ o, long_Epoch o ≤ 1 ∧ Forall (λ c, c ≠ NaN) (long_vals o)) out.
Proof.
  set (out := [mkLong 0 0 [Num 3; Num 1]; mkLong 0 1 [Num 3; Num 1];
               mkLong 1 0 [Num 5; Num 7]]).
  assert (H : clean ["N"] Examples.metrics 1 false true Examples.half = Ok out)
    by reflexivity.
  destruct (clean_output_rows _ _ _ _ _ _ _ H) as (data & Hdata & Hall).
  exists out, data. split; [exact H |]. split; [exact Hdata |].
  eapply Forall_impl; [exact Hall |]. intros o (He & Hv & _). by split.
Defined.

(** ** The order of the long table *)





#[local] Instance position_leb_total (level : list Z) :
  Total (λ a b : Z * list cell, Is_true (position_leb level a.1 b.1)).
Proof.
  intros a b. unfold position_leb. rewrite !Is_true_true, !Nat.leb_le. lia.
Qed.

#[local] Instance position_leb_transitive (level : list Z) :
  Transitive (λ a b : Z * list cell, Is_true (position_leb level a.1 b.1)).
Proof.
  intros a b c. unfold position_leb. rewrite !Is_true_true, !Nat.leb_le. lia.
Qed.



Lemma position_lookup level v : v ∈ level → level !! position level v = Some v.
Proof.
  intros [i Hi]%index_of_elem_of. unfold position. rewrite Hi. simpl.
  by apply index_of_lookup.
Qed.



(** ** The order of the rows of the input *)

#[local] Instance code_leb_total (level_t level_m : list Z) :
  Total (λ a b : run_id, Is_true (code_leb level_t level_m a b)).
Proof.
  intros a b. unfold code_leb.
  rewrite !Is_true_true, !orb_true_iff, !andb_true_iff, !Nat.ltb_lt,
    !Nat.eqb_eq, !Nat.leb_le. lia.
Qed.

#[local] Instance code_leb_transitive (level_t level_m : list Z) :
  Transitive (λ a b : run_id, Is_true (code_leb level_t level_m a b)).
Proof.
  intros a b c. unfold code_leb.
  rewrite !Is_true_true, !orb_true_iff, !andb_true_iff, !Nat.ltb_lt,
    !Nat.eqb_eq, !Nat.leb_le. lia.
Qed.

(** A value with the code of a value of the level is that value. *)
Lemma position_inj level a b :
  a ∈ level → position level a = position level b → a = b.
Proof.
  intros Ha Heq. pose proof (position_lookup _ _ Ha) as Hla. rewrite Heq in Hla.
  unfold position in Hla. destruct (index_of b level) as [j|] eqn:Hj; simpl in Hla.
  - apply index_of_lookup in Hj. congruence.
  - by apply lookup_lt_Some, Nat.lt_irrefl in Hla.
Qed.

(** A level all of whose values are in use is left alone. *)
Lemma remove_unused_levels_all level used :
  (∀ v, v ∈ level → v ∈ used) → remove_unused_levels level used = level.
Proof.
  intros Hall. unfold remove_unused_levels.
  destruct (forallb _ level) eqn:Hf; [done |].
  exfalso. apply not_true_iff_false in Hf. apply Hf, Is_true_true.
  apply forallb_True, Forall_forall.
  intros v Hv. by apply bool_decide_pack, Hall.
Qed.

Lemma remove_dups_Permutation {A} `{EqDecision A} (l l' : list A) :
  l ≡ₚ l' → remove_dups l ≡ₚ remove_dups l'.
Proof.
  intros Hperm. apply NoDup_Permutation; [apply NoDup_remove_dups.. |].
  intros x. by rewrite !elem_of_remove_dups, Hperm.
Qed.

Lemma forallb_Permutation {A} (f g : A → bool) (l l' : list A) :
  l ≡ₚ l' → (∀ x, f x = g x) → forallb f l = forallb g l'.
Proof.
  intros Hperm Hext.
  assert (Hfg : ∀ k, forallb f k = forallb g k).
  { induction k as [|z k IHk]; [done |]. cbn [forallb]. by rewrite Hext, IHk. }
  rewrite Hfg. clear Hfg Hext.
  induction Hperm as [| x l l' _ IH | x y l | l1 l2 l3 _ IH1 _ IH2];
    cbn [forallb]; [done | by rewrite IH | | congruence].
  by destruct (g x), (g y).
Qed.

Lemma index_wf_Permutation df df' :
  index_levels df = index_levels df' → rows df ≡ₚ rows df' →
  index_wf df → index_wf df'.
Proof.
  intros Hl Hperm (H1 & H2 & H3 & Hall). unfold index_wf. rewrite <- Hl.
  split; [done |]. split; [done |]. split; [done |]. by rewrite <- Hperm.
Qed.

(** With the taskid and model_idx levels in full use, the line of runs is
    fixed by the levels. *)
Lemma level_runs_Permutation df df' :
  index_levels df = index_levels df' → rows df ≡ₚ rows df' → index_wf df →
  (∀ v, v ∈ level_taskid (index_levels df) → v ∈ taskid <$> rows df) →
  (∀ v, v ∈ level_model_idx (index_levels df) → v ∈ model_idx <$> rows df) →
  level_runs df = level_runs df'.
Proof.
  intros Hl Hperm Hwf Ht Hm. unfold level_runs. rewrite <- Hl.
  rewrite (remove_unused_levels_all _ (taskid <$> rows df)) by done.
  rewrite (remove_unused_levels_all _ (model_idx <$> rows df)) by done.
  rewrite (remove_unused_levels_all _ (taskid <$> rows df'))
    by (intros v Hv; rewrite <- Hperm; by apply Ht).
  rewrite (remove_unused_levels_all _ (model_idx <$> rows df'))
    by (intros v Hv; rewrite <- Hperm; by apply Hm).
  set (R := λ a b : run_id,
         Is_true (code_leb (level_taskid (index_levels df))
                           (level_model_idx (index_levels df)) a b)).
  apply (StronglySorted_unique_strong R).
  - intros [t1 m1] [t2 m2] H1 _.
    rewrite merge_sort_Permutation, elem_of_remove_dups in H1.
    apply list_elem_of_fmap in H1 as (r1 & [= -> ->] & Hr1).
    intros H12 H21. subst R. cbn beta in H12, H21. unfold code_leb in H12, H21.
    rewrite Is_true_true, orb_true_iff, andb_true_iff, Nat.ltb_lt,
      Nat.eqb_eq, Nat.leb_le in H12, H21. cbn [fst snd] in H12, H21.
    assert (Hpos : position (level_taskid (index_levels df)) (taskid r1)
                   = position (level_taskid (index_levels df)) t2 ∧
                   position (level_model_idx (index_levels df)) (model_idx r1)
                   = position (level_model_idx (index_levels df)) m2) by lia.
    destruct Hpos as [Hpt Hpm].
    destruct Hwf as (_ & _ & _ & Hall). rewrite Forall_forall in Hall.
    destruct (Hall r1 Hr1) as (Hin_t & Hin_m & _).
    f_equal; by eapply position_inj.
  - apply (StronglySorted_merge_sort _).
  - apply (StronglySorted_merge_sort _).
  - rewrite !merge_sort_Permutation. apply remove_dups_Permutation.
    by rewrite Hperm.
Qed.

Lemma level_epochs_Permutation df df' :
  index_levels df = index_levels df' → rows df ≡ₚ rows df' → index_wf df →
  level_epochs df ≡ₚ level_epochs df'.
Proof.
  intros Hl Hperm Hwf.
  pose proof (index_wf_Permutation _ _ Hl Hperm Hwf) as Hwf'.
  apply NoDup_Permutation; [by apply NoDup_level_epochs.. |].
  intros e. split.
  - intros (r & Hr & <-)%elem_of_level_epochs_1.
    apply elem_of_level_epochs_2; [done | by rewrite <- Hperm].
  - intros (r & Hr & <-)%elem_of_level_epochs_1.
    apply elem_of_level_epochs_2; [done | by rewrite Hperm].
Qed.

Lemma block_of_Permutation df df' run e :
  NoDup (key_of <$> rows df) → columns df = columns df' →
  (∀ vs, new_values df vs = new_values df' vs) →
  rows df ≡ₚ rows df' → block_of df run e = block_of df' run e.
Proof.
  intros Hnd Hcols Hnew Hperm. unfold block_of. rewrite <- Hcols.
  assert (Hf : filter (λ r, key_of r = (run, e)) (rows df)
               ≡ₚ filter (λ r, key_of r = (run, e)) (rows df'))
    by (by rewrite Hperm).
  destruct (filter _ (rows df)) as [|r [|r2 l]] eqn:Hl.
  - apply Permutation_nil_l in Hf. by rewrite <- Hf.
  - apply Permutation_singleton_l in Hf. by rewrite <- Hf.
  - exfalso.
    assert (H1 : r ∈ filter (λ r, key_of r = (run, e)) (rows df))
      by (rewrite Hl; left).
    assert (H2 : r2 ∈ filter (λ r, key_of r = (run, e)) (rows df))
      by (rewrite Hl; right; left).
    apply list_elem_of_filter in H1 as [Hk1 Hr1].
    apply list_elem_of_filter in H2 as [Hk2 Hr2].
    assert (r = r2) as <- by (apply (key_of_inj _ _ _ Hnd Hr1 Hr2); congruence).
    assert (Hnd' : NoDup (r :: r :: l)).
    { rewrite <- Hl. apply NoDup_filter. by eapply NoDup_fmap_1. }
    apply NoDup_cons in Hnd' as [Hnot _]. apply Hnot. left.
Qed.

Lemma zip_fmap_r_bind {A B C D} (f : B → C) (h : A * C → list D)
    (l : list A) (k : list B) :
  zip l (f <$> k) ≫= h = zip l k ≫= (λ x, h (x.1, f x.2)).
Proof.
  revert k. induction l as [|x l IH]; intros [|y k]; csimpl; [done.. |].
  by rewrite IH.
Qed.

(** X13. As long as every value of the taskid level and of the model_idx
    level of the index labels some row, the long table does not depend on
    the order of the rows of the table: two tables with the same columns,
    column types and index levels and the same rows in any order are
    anonymized to the same result (the same table, or the same error).
    (When a level holds a value that labels no row any more, the runs are
    lined up by first appearance, and the order of the rows does matter.) *)
Theorem anonymize_row_order (df df' : DataFrame) :
  columns df = columns df' → index_levels df = index_levels df' →
  dtypes df = dtypes df' → rows df ≡ₚ rows df' →
  index_wf df →
  Forall (λ v, v ∈ taskid <$> rows df) (level_taskid (index_levels df)) →
  Forall (λ v, v ∈ model_idx <$> rows df) (level_model_idx (index_levels df)) →
  anonymize df = anonymize df'.
Proof.
  intros Hcols Hl Hdt Hperm Hwf Ht Hm.
  rewrite Forall_forall in Ht. rewrite Forall_forall in Hm.
  destruct (decide (NoDup (key_of <$> rows df))) as [Hnd | Hnd].
  2:{ rewrite !anonymize_duplicates; [done | by rewrite <- Hperm | done]. }
  destruct (decide (rows df = [])) as [Hrows | Hrows].
  { rewrite !anonymize_no_rows; [done | | done].
    rewrite Hrows in Hperm. by apply Permutation_nil_l in Hperm. }
  assert (Hnd' : NoDup (key_of <$> rows df')) by (by rewrite <- Hperm).
  assert (Hrows' : rows df' ≠ []).
  { intros Hr. rewrite Hr in Hperm. by apply Permutation_nil_r in Hperm. }
  destruct (anonymize_returns df Hnd Hrows) as [out Hout].
  destruct (anonymize_returns df' Hnd' Hrows') as [out' Hout'].
  rewrite Hout, Hout'. f_equal.
  apply anonymize_Ok in Hout as (_ & _ & ->).
  apply anonymize_Ok in Hout' as (_ & _ & ->).
  pose proof (level_runs_Permutation df df' Hl Hperm Hwf Ht Hm) as Hruns.
  pose proof (level_epochs_Permutation df df' Hl Hperm Hwf) as Hep.
  assert (Hmask : mask_all df = mask_all df').
  { unfold mask_all. rewrite <- Hruns. apply forallb_Permutation; [done |].
    intros run. apply forallb_Permutation; [done |].
    intros e. apply bool_decide_ext. by rewrite Hperm. }
  assert (Hnew : ∀ vs, new_values df vs = new_values df' vs).
  { intros vs. unfold new_values. by rewrite Hmask, Hdt. }
  assert (Hblock : ∀ run e, block_of df run e = block_of df' run e).
  { intros run e. by apply block_of_Permutation. }
  rewrite <- Hruns, <- Hl.
  rewrite !zip_fmap_r_bind.
  apply list_bind_ext; [| done]. intros [i run]. cbn [fst snd].
  f_equal. rewrite !zip_fmap_same.
  set (R := λ a b : Z * list cell,
         Is_true (position_leb (level_Epoch (index_levels df)) a.1 b.1)).
  apply (StronglySorted_unique_strong R).
  - intros [e1 b1] [e2 b2] H1 H2 H12 H21.
    rewrite merge_sort_Permutation in H1. rewrite merge_sort_Permutation in H2.
    apply list_elem_of_fmap in H1 as (e1' & [= -> ->] & He1).
    apply list_elem_of_fmap in H2 as (e2' & [= -> ->] & He2).
    subst R. cbn beta in H12, H21. unfold position_leb in H12, H21.
    rewrite Is_true_true, Nat.leb_le in H12, H21. cbn [fst] in H12, H21.
    assert (e1' = e2') as ->; [| by rewrite Hblock].
    rewrite <- Hep in He2.
    apply (position_inj (level_Epoch (index_levels df))); [| lia].
    apply elem_of_level_epochs_1 in He1 as (r & Hr & <-).
    destruct Hwf as (_ & _ & _ & Hall). rewrite Forall_forall in Hall.
    by apply Hall.
  - apply (StronglySorted_merge_sort _).
  - apply (StronglySorted_merge_sort _).
  - rewrite !merge_sort_Permutation, <- Hep.
    replace ((λ e, (e, block_of df' run e)) <$> level_epochs df)
      with ((λ e, (e, block_of df run e)) <$> level_epochs df); [done |].
    apply list_fmap_ext. intros _ e _. by rewrite Hblock.
Qed.

Lemma anonymize_row_order_witness :
  anonymize Examples.metrics
  = anonymize (mkDF Examples.cols (reverse (rows Examples.metrics))
                    (index_levels Examples.metrics) Examples.types).
Proof.
  apply (anonymize_row_order Examples.metrics
           (mkDF Examples.cols (reverse (rows Examples.metrics))
                 (index_levels Examples.metrics) Examples.types)).
  - reflexivity.
  - reflexivity.
  - reflexivity.
  - symmetry. apply reverse_Permutation.
  - unfold index_wf. apply (bool_decide_unpack _). exact I.
  - apply (bool_decide_unpack _). exact I.
  - apply (bool_decide_unpack _). exact I.
Defined.

(** ** The surrogate lookup *)

(** X16. [__init__] hands a path to [XGBSurrogate.load] only when it was
    given a [str] or a [Path] that names an existing directory; it then
    calls the loader once, with that path, and its outcome is the loader's.
    A [str] and the [Path] made from it behave alike, and [None] ends with
    the assertion that carries the documented message. *)
Theorem init_loads_only_directories (float : Type)
    (path_exists path_is_dir : string → bool)
    (XGBSurrogate_load : string → result (Benchmark.XGBSurrogate float))
    (model_path : pyobj) :
  let init := Benchmark.__init__ float path_exists path_is_dir XGBSurrogate_load in
  ((init model_path).2 ≠ [] ↔
   ∃ p, (model_path = PyStr p ∨ model_path = PyPath p) ∧
        path_exists p = true ∧ path_is_dir p = true) ∧
  (∀ p, p ∈ (init model_path).2 → init model_path = (XGBSurrogate_load p, [p])) ∧
  ((init model_path).2 = [] → ∃ cls msg, (init model_path).1 = Raise cls msg) ∧
  (∀ p, init (PyStr p) = init (PyPath p)) ∧
  init PyNone = (Raise "AssertionError" Benchmark.documented_message, []).
Proof.
  intros init. unfold init, Benchmark.__init__.
  split; [| split; [| split; [| by split]]].
  - destruct model_path as [| b | z | p | p]; simpl;
      try (split; [done | by intros (p & [? | ?] & _)]);
      destruct (path_exists p) eqn:He, (path_is_dir p) eqn:Hd; simpl;
      (split; [intros Hl; try done; exists p; eauto
              | intros (p' & [[= <-] | [= <-]] & He' & Hd'); congruence]).
  - destruct model_path as [| b | z | p | p]; simpl;
      try (by intros p' ?%elem_of_nil);
      destruct (path_exists p), (path_is_dir p); simpl;
      try (by intros p' ?%elem_of_nil);
      by intros p' ->%list_elem_of_singleton.
  - destruct model_path as [| b | z | p | p]; simpl; try (by eauto);
      destruct (path_exists p), (path_is_dir p); simpl; try done; by eauto.
Qed.

Lemma setitem_fst {V} (k : string) (v : V) (d : list (string * V)) :
  (setitem k v d).*1 = if decide (k ∈ d.*1) then d.*1 else d.*1 ++ [k].
Proof.
  induction d as [|[k' v'] d IH]; cbn [setitem fst].
  - by rewrite decide_False by apply not_elem_of_nil.
  - destruct (decide (k' = k)) as [-> | Hne].
    + rewrite decide_True by (rewrite fmap_cons; left). by rewrite !fmap_cons.
    + rewrite !fmap_cons, IH. cbn [fst].
      destruct (decide (k ∈ d.*1)) as [Hin | Hnin].
      * by rewrite decide_True by (by right).
      * rewrite decide_False; [done |].
        rewrite not_elem_of_cons. split; [congruence | done].
Qed.

Lemma setitem_NoDup {V} (k : string) (v : V) (d : list (string * V)) :
  NoDup (d.*1) → NoDup ((setitem k v d).*1).
Proof.
  intros Hnd. rewrite setitem_fst. case_decide; [done |].
  apply NoDup_app. split; [done |]. split; [| apply NoDup_singleton].
  intros x Hx ->%list_elem_of_singleton. done.
Qed.

(** A dict has distinct keys. *)
Lemma dict_of_distinct {V} (items : list (string * V)) : NoDup ((dict_of items).*1).
Proof.
  unfold dict_of. assert (Hacc : NoDup ((@nil (string * V)).*1)) by constructor.
  revert Hacc. generalize (@nil (string * V)).
  induction items as [|kv items IH]; intros acc Hacc; cbn [foldl]; [done |].
  apply IH. by apply setitem_NoDup.
Qed.

Lemma elem_of_setitem {V} (k : string) (v : V) (d : list (string * V)) k' v' :
  NoDup (d.*1) →
  (k', v') ∈ setitem k v d ↔ (k' = k ∧ v' = v) ∨ (k' ≠ k ∧ (k', v') ∈ d).
Proof.
  induction d as [|[k0 v0] d IH]; cbn [setitem fst]; intros Hnd.
  - rewrite list_elem_of_singleton, elem_of_nil.
    split; [intros [= -> ->]; by left | intros [[-> ->] | [_ []]]; done].
  - rewrite fmap_cons in Hnd. apply NoDup_cons in Hnd as [Hk0 Hnd]. cbn [fst] in Hk0.
    destruct (decide (k0 = k)) as [-> | Hne]; rewrite !elem_of_cons.
    + split.
      * intros [[= -> ->] | Hin]; [by left |].
        right. split; [| by right]. intros ->. apply Hk0.
        by apply (list_elem_of_fmap_2 fst) in Hin.
      * intros [[-> ->] | [Hne [[= ? ?] | Hin]]]; [by left | done | by right].
    + rewrite (IH Hnd). split.
      * intros [[= -> ->] | [[-> ->] | [Hne' Hin]]];
          [right; split; [done | by left] | by left | right; split; [done | by right]].
      * intros [[-> ->] | [Hne' [[= -> ->] | Hin]]];
          [right; by left | by left | right; right; by split].
Qed.

(** X17. The feature row always has distinct names and always carries the
    given epoch number under [epoch]; every other field of the
    configuration is in it unchanged, and it has no further field.  A
    configuration that has an [epoch] field of its own keeps its field
    names as they are: its value of [epoch] is replaced where it stands. *)
Theorem features_of_fields (config : list (string * pyobj)) (nepochs : pyobj) :
  let features := Benchmark.features_of config nepochs in
  NoDup (features.*1) ∧
  (∀ v, ("epoch", v) ∈ features ↔ v = nepochs) ∧
  (∀ k v, k ≠ "epoch" → (k, v) ∈ features ↔ (k, v) ∈ dict_of config) ∧
  ("epoch" ∈ config.*1 → features.*1 = (dict_of config).*1).
Proof.
  intros features. unfold features, Benchmark.features_of.
  pose proof (dict_of_distinct config) as Hnd.
  split; [by apply setitem_NoDup |]. split; [| split].
  - intros v. rewrite (elem_of_setitem _ _ _ _ _ Hnd). split.
    + by intros [[_ ->] | [Hne _]].
    + intros ->. by left.
  - intros k v Hk. rewrite (elem_of_setitem _ _ _ _ _ Hnd). split.
    + by intros [[-> _] | [_ Hin]].
    + intros Hin. by right.
  - intros Hin. rewrite setitem_fst. by rewrite decide_True by (by rewrite dict_of_keys).
Qed.

Lemma reshape_rows {float} (n k : nat) (flat : list float) :
  n ≠ 0%nat → k ≠ 0%nat → length flat = (k * n)%nat →
  ∃ rest, Benchmark.reshape float n flat = Ok (take n flat :: rest).
Proof.
  intros Hn Hk Hlen. unfold Benchmark.reshape.
  rewrite decide_False by done. rewrite Hlen.
  rewrite decide_True by (by apply Nat.Div0.mod_mul).
  rewrite Nat.div_mul by done. destruct k as [|k]; [done |].
  cbn [seq fmap list_fmap map]. rewrite Nat.mul_0_l, drop_0. by eexists.
Qed.

Lemma comprehension_foldl {float} (labels : list string) (j : nat)
    (acc : list (string * float)) (row : list float) (rest : list (list float)) :
  (j + length labels ≤ length row)%nat →
  Benchmark.comprehension float (row :: rest) (imap (λ i k, ((j + i)%nat, k)) labels) acc
  = Ok (foldl (λ d kv, setitem kv.1 kv.2 d) acc (zip labels (drop j row))).
Proof.
  revert j acc. induction labels as [|k ks IH]; intros j acc Hlen; [done |].
  rewrite imap_cons. cbn [Benchmark.comprehension Benchmark.item lookup list_lookup].
  cbn [mbind result_bind fst snd]. rewrite Nat.add_0_r.
  destruct (row !! j) as [v|] eqn:Hv.
  2:{ apply lookup_ge_None in Hv. simpl in Hlen. lia. }
  unfold Benchmark.item. rewrite Hv. cbn [mbind result_bind].
  rewrite (imap_ext _ (λ i k0, ((S j + i)%nat, k0))).
  2:{ intros i x _. simpl. f_equal. lia. }
  rewrite IH by (simpl in Hlen; lia).
  by rewrite (drop_S _ _ _ Hv).
Qed.

Lemma zip_take_l {A B} (l : list A) (k : list B) :
  zip l (take (length l) k) = zip l k.
Proof.
  revert k. induction l as [|x l IH]; intros [|y k]; simpl; [done.. |].
  by rewrite IH.
Qed.

(** X18. Whenever the model has a label and its prediction fills one or
    more rows of label-count width, the lookup returns the dict built from
    the labels paired with the first row of the prediction: later rows are
    ignored, the keys are distinct and are exactly the label names, and of
    two labels with the same name the later one provides the value. *)
Theorem benchmark_surrogate_dict (float : Type)
    (surrogate : Benchmark.XGBSurrogate float)
    (config : list (string * pyobj)) (nepochs : pyobj) (k : nat) :
  let labels := Benchmark.label_headers float surrogate in
  let outputs :=
    Benchmark.predict float surrogate (Benchmark.features_of config nepochs) in
  labels ≠ [] → k ≠ 0%nat → length outputs = (k * length labels)%nat →
  ∃ result,
    Benchmark._benchmark_surrogate float surrogate config nepochs = Ok result ∧
    result = dict_of (zip labels outputs) ∧
    NoDup (result.*1) ∧
    (∀ name, name ∈ result.*1 ↔ name ∈ labels) ∧
    (length result ≤ length labels)%nat.
Proof.
  intros labels outputs Hne Hk Hlen.
  assert (Hn : length labels ≠ 0%nat) by (by destruct labels).
  destruct (reshape_rows (length labels) k outputs Hn Hk Hlen) as [rest Hres].
  assert (Hkeys : ∀ name, name ∈ (dict_of (zip labels outputs)).*1 ↔ name ∈ labels).
  { intros name. rewrite dict_of_keys, fst_zip; [done |]. rewrite Hlen.
    destruct k; [done | lia]. }
  exists (dict_of (zip labels outputs)).
  split; [| split; [reflexivity | split; [apply dict_of_distinct | split; [exact Hkeys |]]]].
  - unfold Benchmark._benchmark_surrogate. fold labels. fold outputs.
    rewrite Hres. cbn [mbind result_bind].
    etrans; [apply (comprehension_foldl labels 0 [] (take (length labels) outputs) rest) |].
    + rewrite length_take, Hlen. destruct k; [done | lia].
    + rewrite drop_0, zip_take_l. done.
  - rewrite <- (length_fmap fst). apply submseteq_length, NoDup_submseteq.
    + apply dict_of_distinct.
    + intros name. apply Hkeys.
Qed.

Lemma benchmark_surrogate_dict_witness :
  Benchmark._benchmark_surrogate Z Examples.repeating_model Examples.config (PyInt 200)
    = Ok [("loss", 3); ("acc", 2)].
Proof.
  destruct (benchmark_surrogate_dict Z Examples.repeating_model Examples.config
              (PyInt 200) 2) as (result & Hres & -> & _);
    [discriminate | discriminate | reflexivity |].
  exact Hres.
Defined.

(** X19. The lookup fails where numpy does: with a model that has no label
    ([reshape(-1, 0)]) and with a prediction whose size is not a multiple of
    the number of labels it ends with a [ValueError], and with an empty
    prediction it ends with the [IndexError] of [outputs[0]]. *)
Theorem benchmark_surrogate_errors (float : Type)
    (surrogate : Benchmark.XGBSurrogate float)
    (config : list (string * pyobj)) (nepochs : pyobj) :
  let labels := Benchmark.label_headers float surrogate in
  let outputs :=
    Benchmark.predict float surrogate (Benchmark.features_of config nepochs) in
  let lookup := Benchmark._benchmark_surrogate float surrogate config nepochs in
  (labels = [] → raises lookup "ValueError") ∧
  ((length outputs `mod` length labels)%nat ≠ 0%nat → raises lookup "ValueError") ∧
  (labels ≠ [] → outputs = [] → raises lookup "IndexError").
Proof.
  intros labels outputs lookup. unfold lookup, Benchmark._benchmark_surrogate.
  fold labels. fold outputs. unfold Benchmark.reshape.
  split; [| split].
  - intros ->. by eexists.
  - intros Hmod. destruct (decide (length labels = 0%nat)); [by eexists |].
    rewrite decide_False by done. by eexists.
  - intros Hne ->. destruct labels as [|l ls]; [done |].
    rewrite decide_False by done.
    rewrite decide_True by apply Nat.Div0.mod_0_l.
    cbn [length]. rewrite Nat.Div0.div_0_l. by eexists.
Qed.

(** ** The filtering steps together *)

Lemma DataFrame_eq (d d' : DataFrame) :
  columns d = columns d' → rows d = rows d' →
  index_levels d = index_levels d' → dtypes d = dtypes d' → d = d'.
Proof. destruct d, d'. simpl. by intros -> -> -> ->. Qed.

(** X20. Without sub-sampling ([subsample ≥ 1]) the four filtering steps
    return a table that is described by the rows alone.  In the default NaN
    mode and with distinct row labels it holds exactly the rows within the
    horizon that have no NaN.  With [keep_nan_configs] it holds the rows
    within the horizon of the runs that have no NaN within the horizon: a
    NaN at an epoch beyond the horizon does not cost the run its rows. *)
Theorem clean_filters_without_subsampling (fp : list string) (data : DataFrame)
    (epochs : Z) (keep_incomplete_runs : bool) (frac : binary64) :
  float_lt frac one = false →
  (NoDup (key_of <$> rows data) →
   clean_filters fp data epochs keep_incomplete_runs false frac
     = Ok (loc (λ r, (Epoch r <=? epochs) && negb (nan_check r)) data)) ∧
  (∃ out,
     clean_filters fp data epochs keep_incomplete_runs true frac = Ok out ∧
     columns out = columns data ∧
     ∀ r, r ∈ rows out ↔
          r ∈ rows data ∧ Epoch r ≤ epochs ∧
          ∀ r', r' ∈ rows data → run_of r' = run_of r → Epoch r' ≤ epochs →
                nan_check r' = false).
Proof.
  intros Hfrac.
  assert (Hskip : ∀ b, clean_filters fp data epochs keep_incomplete_runs b frac
                       = Ok (nan_filter b (truncate_epochs epochs data))).
  { intros b. unfold clean_filters, subsample_stage.
    by rewrite Hfrac, completeness_filter_truncated. }
  split.
  - intros Hnd. rewrite Hskip. f_equal.
    assert (Hnd' : NoDup (key_of <$> rows (truncate_epochs epochs data))).
    { eapply sublist_NoDup; [exact Hnd |].
      apply fmap_sublist, (loc_only_removes_rows _ data). }
    apply DataFrame_eq; [done | | done..].
    rewrite (nan_filter_strict_rows _ Hnd').
    unfold truncate_epochs, loc. cbn [rows].
    rewrite list_filter_filter. apply list_filter_iff. intros r.
    rewrite !Is_true_true, andb_true_iff. tauto.
  - eexists. split; [apply Hskip |]. split; [done |].
    intros r. rewrite elem_of_nan_filter_lenient, elem_of_truncate_epochs. split.
    + intros [[Hr He] Hno]. split; [done |]. split; [done |].
      intros r' Hr' Hrun He'. apply Hno; [| done].
      by apply elem_of_truncate_epochs.
    + intros (Hr & He & Hno). split; [done |].
      intros r' [Hr' He']%elem_of_truncate_epochs Hrun. by apply Hno.
Qed.

Lemma clean_filters_without_subsampling_witness :
  float_lt one one = false ∧
  clean_filters ["N"] Examples.metrics 1 false false one
    = Ok (loc (λ r, (Epoch r <=? 1) && negb (nan_check r)) Examples.metrics).
Proof.
  assert (H : float_lt one one = false) by reflexivity.
  split; [exact H |].
  apply (clean_filters_without_subsampling ["N"] Examples.metrics 1 false one H).
  apply (bool_decide_unpack _). exact I.
Defined.

(** ** The output file *)

Lemma string_length_app (a b : string) :
  String.length (a +:+ b) = (String.length a + String.length b)%nat.
Proof. induction a as [|c a IH]; simpl; [done | by rewrite IH]. Qed.

(** X21. The table is written next to the path the caller gave, under the
    caller's file name followed by [.pkl.gz]: the directory is unchanged,
    the suffix is added also to a name that already ends in it, and the
    path written is never the path given. *)
Theorem outfile_path_suffix (outfile : PurePath.Path) :
  PurePath.name (PurePath.outfile_path outfile)
    = PurePath.name outfile +:+ ".pkl.gz" ∧
  PurePath.parent (PurePath.outfile_path outfile) = PurePath.parent outfile ∧
  PurePath.name (PurePath.outfile_path (PurePath.outfile_path outfile))
    = (PurePath.name outfile +:+ ".pkl.gz") +:+ ".pkl.gz" ∧
  PurePath.outfile_path outfile ≠ outfile.
Proof.
  assert (Hname : ∀ p, PurePath.name (PurePath.outfile_path p)
                       = PurePath.name p +:+ ".pkl.gz").
  { intros p. unfold PurePath.name, PurePath.outfile_path, PurePath.joinpath.
    cbn [PurePath.parts]. by rewrite last_snoc. }
  split; [apply Hname |]. split; [| split].
  - unfold PurePath.parent, PurePath.outfile_path, PurePath.joinpath.
    cbn [PurePath.parts PurePath.absolute]. by rewrite removelast_last.
  - by rewrite !Hname.
  - intros Heq. pose proof (Hname outfile) as Hn. rewrite Heq in Hn.
    apply (f_equal String.length) in Hn. rewrite string_length_app in Hn.
    simpl in Hn. lia.
Qed.
